(** * Blog API: token validation, rate limiting and the request pipeline

    A shallow embedding of the authentication / rate-limiting middleware of
    the FastAPI service (api/src/auth.py, rate_limit.py, middleware.py,
    main.py, config.py, exceptions.py) and the properties of it that the
    design document states.

    Conventions of the embedding
    - Python [str] values are [string]s whose characters are the code points
      0..255 (Latin-1, which is also the encoding Starlette uses for header
      values).
    - Python [float]s (bucket token counts, [time.time()] readings) are exact
      rationals [Q]; an [int] is a [Z], injected into [Q] where Python
      promotes it.  Division by zero raises [ZeroDivisionError] as in Python.
      The rounding of binary64, its infinities and the [OverflowError] of
      the conversion of a large [int] are not modelled.  The two
      arithmetics agree on whole numbers up to 2^53, on the order of
      numbers (rounding is monotone and leaves whole numbers up to 2^53 as
      they are) and on [x - 1] for [1 <= x <= 2^53]; they differ on the
      value of a refill: after a bucket of 10 per 60 seconds was drained at
      time 0, a call at 1.0 and one at 6.0 leave 0.9999999999999999 tokens
      where the exact count is 1.  The properties of the token bucket below
      are therefore stated as bounds and orders, or for the cases in which
      nothing is rounded (no time elapsed; a full window elapsed, where the
      refill is clamped), and for capacities and windows up to 2^53 where
      the result depends on it; none equates a count with the value of
      [elapsed / per * rate].
    - An exception is a value of [exn]; code that may raise returns an
      [outcome].  State that outlives a call (the bucket dictionary, the JWKS
      cache, the count of network requests) is passed in and out explicitly.
    - Library calls whose code is not part of the repository (python-jose,
      httpx, uuid, the next ASGI handler) are parameters. *)

From Stdlib Require Import ZArith QArith Qround Qminmax Lqa Lia Ascii String.
From stdpp Require Import base option list gmap strings pretty.

Set Warnings "-register-all".

Local Open Scope Z_scope.
Local Open Scope string_scope.

(** ** Python values and exceptions *)

(** A JSON-like Python value, as [response.json()] and [jwt.decode] return. *)
Inductive pyval :=
| PNone
| PBool (b : bool)
| PInt (n : Z)
| PStr (s : string)
| PList (l : list pyval)
| PDict (d : list (string * pyval)).

(** A [dict] with [str] keys: insertion ordered, lookup finds the binding
    of the key. *)
Abbreviation pydict := (list (string * pyval)).

Fixpoint dict_get (d : pydict) (k : string) : option pyval :=
  match d with
  | [] => None
  | (k', v) :: d' => if String.eqb k' k then Some v else dict_get d' k
  end.

(** [d.get(k, default)] *)
Definition dict_get_default (d : pydict) (k : string) (dflt : pyval) : pyval :=
  match dict_get d k with Some v => v | None => dflt end.

(** Exceptions.  [JWTError] stands for [jose.JWTError] and its subclasses,
    [HTTPError] for [httpx.HTTPError], [PyError kind msg] for any other
    subclass of [Exception] ([kind] is the class name, [msg] its text). *)
Inductive exn :=
| JWTError (msg : string)
| HTTPError (msg : string)
| TokenValidationError (reason : string)
| PyError (kind msg : string).

Inductive outcome (A : Type) :=
| Returned (a : A)
| Raised (e : exn).
Arguments Returned {A} a.
Arguments Raised {A} e.

(** exceptions.py: [TokenValidationError(reason)] sets
    [message = "Token validation failed"], [status_code = 401] and
    [details = {"reason": reason}], and passes [message] to
    [Exception.__init__]; so [str(e)] is the message, not the reason. *)
Definition tve_message : string := "Token validation failed".
Definition tve_status_code : Z := 401.
Definition tve_details (reason : string) : pydict := [("reason", PStr reason)].

(** [str(e)] *)
Definition exn_str (e : exn) : string :=
  match e with
  | JWTError msg => msg
  | HTTPError msg => msg
  | TokenValidationError _ => tve_message
  | PyError _ msg => msg
  end.

(** [fastapi.HTTPException(status_code, detail, headers)] *)
Record HTTPException := {
  exc_status_code : Z;
  exc_detail : pyval;
  exc_headers : list (string * string)
}.

(** What a middleware or a dependency hands back: a value, an
    [HTTPException], or any other exception. *)
Inductive reply (A : Type) :=
| Done (a : A)
| Abort (e : HTTPException)
| Crash (e : exn).
Arguments Done {A} a.
Arguments Abort {A} e.
Arguments Crash {A} e.

(** ** Strings *)

(** [str.lower()] on one code point below 256. *)
Definition lower_ascii (c : ascii) : ascii :=
  let n := N_of_ascii c in
  if ((65 <=? n) && (n <=? 90) || (192 <=? n) && (n <=? 222) && negb (n =? 215))%N
  then ascii_of_N (n + 32) else c.

Fixpoint lower (s : string) : string :=
  match s with
  | EmptyString => EmptyString
  | String c s' => String (lower_ascii c) (lower s')
  end.

(** [str.isspace()] on one code point below 256. *)
Definition is_space (c : ascii) : bool :=
  let n := N_of_ascii c in
  ((9 <=? n) && (n <=? 13) || (28 <=? n) && (n <=? 32) || (n =? 133) || (n =? 160))%N.

(** [s.split()]: the maximal runs of non-space characters.  [cur] is the
    run being read, reversed. *)
Fixpoint split_go (s : string) (cur : list ascii) : list string :=
  let flush (rest : list string) :=
    match cur with
    | [] => rest
    | _ => string_of_list_ascii (rev cur) :: rest
    end in
  match s with
  | EmptyString => flush []
  | String c s' =>
      if is_space c then flush (split_go s' []) else split_go s' (c :: cur)
  end.

Definition split (s : string) : list string := split_go s [].

(** [needle in hay] for two [str]s. *)
Fixpoint contains (needle hay : string) : bool :=
  String.prefix needle hay ||
  match hay with
  | EmptyString => false
  | String _ hay' => contains needle hay'
  end.

(** ** Requests and responses (Starlette) *)

(** [request.state]: the two attributes this code base sets or reads. *)
Record State := {
  correlation_id : option string;
  user_oid : option string
}.

Record Request := {
  client : option string;               (* request.client.host, if a client *)
  method : string;
  path : string;                        (* request.url.path *)
  headers : list (string * string);     (* raw headers, names lower-cased by the server *)
  state : State
}.

Record Response := {
  status_code : Z;
  resp_headers : list (string * string);
  content : pyval
}.

(** [Headers.get(key)]: the value of the first header whose stored name is
    [key.lower()]. *)
Fixpoint headers_find (hs : list (string * string)) (k : string) : option string :=
  match hs with
  | [] => None
  | (k', v) :: hs' => if String.eqb k' k then Some v else headers_find hs' k
  end.

Definition headers_get (hs : list (string * string)) (key : string) : option string :=
  headers_find hs (lower key).

(** [MutableHeaders.__setitem__]: the first header of that name is
    overwritten and later ones are deleted; without one, the header is
    appended. *)
Fixpoint headers_replace (hs : list (string * string)) (k value : string)
  : list (string * string) :=
  match hs with
  | [] => []
  | (k', v) :: hs' =>
      if String.eqb k' k
      then (k, value) :: filter (fun kv => negb (String.eqb (fst kv) k)) hs'
      else (k', v) :: headers_replace hs' k value
  end.

Definition headers_set (hs : list (string * string)) (key value : string)
  : list (string * string) :=
  let k := lower key in
  match headers_find hs k with
  | Some _ => headers_replace hs k value
  | None => hs ++ [(k, value)]
  end.

Definition set_response_header (r : Response) (key value : string) : Response :=
  {| status_code := status_code r;
     resp_headers := headers_set (resp_headers r) key value;
     content := content r |}.

(** ** rate_limit.py: the token bucket *)

Module RateLimit.

(** [bucket = {"tokens": ..., "last_update": ...}] *)
Record Bucket := {
  tokens : Q;
  last_update : Q
}.

(** [RateLimiter]: [buckets] is the [defaultdict]; a key that is looked up
    and missing is bound to [{"tokens": rate, "last_update": time.time()}]. *)
Record RateLimiter := {
  rate : Z;
  per : Z;
  buckets : gmap string Bucket
}.

(** [RateLimiter(rate, per)] *)
Definition new_limiter (rate per : Z) : RateLimiter :=
  {| rate := rate; per := per; buckets := ∅ |}.

Definition set_buckets (lim : RateLimiter) (bs : gmap string Bucket) : RateLimiter :=
  {| rate := rate lim; per := per lim; buckets := bs |}.

Record RateInfo := {
  limit : Z;
  remaining : Z;
  reset : Z;
  retry_after : Z
}.

Definition ZeroDivisionError : exn := PyError "ZeroDivisionError" "division by zero".

(** [x < y] on numbers. *)
Definition Qlt_bool (x y : Q) : bool := negb (Qle_bool y x).

(** [min(a, b)]: the first argument unless the second is smaller. *)
Definition py_min (a b : Q) : Q := if Qlt_bool b a then b else a.

(** [int(x)] of a float: truncation toward zero. *)
Definition py_int (x : Q) : Z := Z.quot (Qnum x) (Zpos (Qden x)).

(** [_get_client_id]: the client address, followed by [":" + user_oid] when
    [request.state] has a truthy [user_oid]. *)
Definition _get_client_id (request : Request) : string :=
  let client_ip := match client request with Some host => host | None => "unknown" end in
  match user_oid (state request) with
  | Some oid => if String.eqb oid "" then client_ip else client_ip +:+ ":" +:+ oid
  | None => client_ip
  end.

(** [_refill_tokens(bucket)], with [now] the reading of [time.time()].  The
    arithmetic is exact where the code rounds to binary64. *)
Definition _refill_tokens (lim : RateLimiter) (bucket : Bucket) (now : Q)
  : outcome Bucket :=
  let elapsed := (now - last_update bucket)%Q in
  if (per lim =? 0)%Z then Raised ZeroDivisionError
  else
    let tokens_to_add := ((elapsed / inject_Z (per lim)) * inject_Z (rate lim))%Q in
    Returned {| tokens := py_min (inject_Z (rate lim)) (tokens bucket + tokens_to_add)%Q;
                last_update := now |}.

(** [is_allowed(request)].  [t_new] is the clock reading taken by the
    [defaultdict] factory (used only when the client has no bucket yet) and
    [t_now] the one taken by [_refill_tokens].  The bucket is a dictionary
    stored in [buckets] and mutated in place, so every update is written
    back under [client_id], also on the paths that raise afterwards. *)
Definition is_allowed (lim : RateLimiter) (request : Request) (t_new t_now : Q)
  : RateLimiter * outcome (bool * RateInfo) :=
  let client_id := _get_client_id request in
  let bucket :=
    match buckets lim !! client_id with
    | Some b => b
    | None => {| tokens := inject_Z (rate lim); last_update := t_new |}
    end in
  match _refill_tokens lim bucket t_now with
  | Raised e => (set_buckets lim (<[client_id := bucket]> (buckets lim)), Raised e)
  | Returned refilled =>
      let allowed := Qle_bool 1 (tokens refilled) in
      let bucket' :=
        if allowed
        then {| tokens := (tokens refilled - 1)%Q; last_update := last_update refilled |}
        else refilled in
      let lim' := set_buckets lim (<[client_id := bucket']> (buckets lim)) in
      if (rate lim =? 0)%Z then (lim', Raised ZeroDivisionError)
      else
        let retry_after :=
          py_int ((1 - tokens bucket') * (inject_Z (per lim) / inject_Z (rate lim)))%Q in
        (lim', Returned (allowed,
           {| limit := rate lim;
              remaining := py_int (tokens bucket');
              reset := py_int (last_update bucket' + inject_Z (per lim))%Q;
              retry_after := if allowed then 0 else retry_after |}))
  end.

(** *** RateLimitMiddleware *)

Record RateLimitMiddleware := {
  limiters : gmap string RateLimiter
}.

(** [RateLimitMiddleware(app, default_rate, default_per)] *)
Definition new_middleware (default_rate default_per : Z) : RateLimitMiddleware :=
  {| limiters :=
       <["default" := new_limiter default_rate default_per]>
       (<["auth" := new_limiter 10 60]>
       (<["write" := new_limiter 30 60]>
       (<["read" := new_limiter 100 60]> ∅))) |}.

Definition _get_limiter_type (request : Request) : string :=
  let path := path request in
  let method := method request in
  if contains "login" path || contains "callback" path || contains "token" path
  then "auth"
  else if bool_decide (method ∈ ["POST"; "PUT"; "PATCH"; "DELETE"]) then "write"
  else if String.eqb method "GET" then "read"
  else "default".

Definition health_paths : list string := ["/health"; "/health/live"; "/health/ready"].

Definition HTTP_429_TOO_MANY_REQUESTS : Z := 429.

(** The [HTTPException] raised when a request is denied. *)
Definition rate_limit_exceeded (rate_info : RateInfo) : HTTPException :=
  {| exc_status_code := HTTP_429_TOO_MANY_REQUESTS;
     exc_detail := PDict [("error", PStr "Rate limit exceeded");
                          ("retry_after", PInt (retry_after rate_info));
                          ("limit", PInt (limit rate_info))];
     exc_headers := [("X-RateLimit-Limit", pretty (limit rate_info));
                     ("X-RateLimit-Remaining", "0");
                     ("X-RateLimit-Reset", pretty (reset rate_info));
                     ("Retry-After", pretty (retry_after rate_info))] |}.

(** [dispatch(request, call_next)] *)
Definition dispatch (mw : RateLimitMiddleware) (request : Request)
    (call_next : Request -> reply Response) (t_new t_now : Q)
  : RateLimitMiddleware * reply Response :=
  if bool_decide (path request ∈ health_paths) then (mw, call_next request)
  else
    let limiter_type := _get_limiter_type request in
    match limiters mw !! limiter_type with
    | None => (mw, Crash (PyError "KeyError" limiter_type))
    | Some limiter =>
        let '(limiter', res) := is_allowed limiter request t_new t_now in
        let mw' := {| limiters := <[limiter_type := limiter']> (limiters mw) |} in
        match res with
        | Raised e => (mw', Crash e)
        | Returned (allowed, rate_info) =>
            if negb allowed then (mw', Abort (rate_limit_exceeded rate_info))
            else
              match call_next request with
              | Done response =>
                  let response := set_response_header response
                                    "X-RateLimit-Limit" (pretty (limit rate_info)) in
                  let response := set_response_header response
                                    "X-RateLimit-Remaining" (pretty (remaining rate_info)) in
                  let response := set_response_header response
                                    "X-RateLimit-Reset" (pretty (reset rate_info)) in
                  (mw', Done response)
              | failure => (mw', failure)
              end
        end
    end.

End RateLimit.

(** ** config.py *)

Inductive Environment := development | staging | production.

Record Settings := {
  tenant_id : string;
  api_app_id_uri : string;
  required_scope : string;
  jwks_uri : option string;
  environment : Environment
}.

(** [Settings.jwks_endpoint] *)
Definition jwks_endpoint (settings : Settings) : string :=
  let constructed :=
    "https://login.microsoftonline.com/" +:+ tenant_id settings +:+ "/" +:+
    "discovery/v2.0/keys" in
  match jwks_uri settings with
  | Some uri => if String.eqb uri "" then constructed else uri
  | None => constructed
  end.

(** [Settings.token_issuer] *)
Definition token_issuer (settings : Settings) : string :=
  "https://login.microsoftonline.com/" +:+ tenant_id settings +:+ "/v2.0".

(** [Settings.is_production] *)
Definition is_production (settings : Settings) : bool :=
  match environment settings with
  | production => true
  | _ => false
  end.

(** ** auth.py: JWT validation *)

Module Auth.

(** Truth value of a Python object. *)
Definition py_truthy (v : pyval) : bool :=
  match v with
  | PNone => false
  | PBool b => b
  | PInt n => negb (n =? 0)%Z
  | PStr s => negb (String.eqb s "")
  | PList l => match l with [] => false | _ => true end
  | PDict d => match d with [] => false | _ => true end
  end.

(** [a == b] *)
Fixpoint py_eq (a b : pyval) : bool :=
  match a, b with
  | PNone, PNone => true
  | PBool x, PBool y => Bool.eqb x y
  | PBool x, PInt n => (n =? (if x then 1 else 0))%Z
  | PInt n, PBool y => (n =? (if y then 1 else 0))%Z
  | PInt x, PInt y => (x =? y)%Z
  | PStr x, PStr y => String.eqb x y
  | PList x, PList y =>
      (fix all2 (x y : list pyval) : bool :=
         match x, y with
         | [], [] => true
         | a' :: x', b' :: y' => py_eq a' b' && all2 x' y'
         | _, _ => false
         end) x y
  | PDict x, PDict y =>
      (length x =? length y)%nat &&
      (fix sub (x : pydict) : bool :=
         match x with
         | [] => true
         | (k, v) :: x' =>
             match dict_get y k with
             | Some v' => py_eq v v' && sub x'
             | None => false
             end
         end) x
  | _, _ => false
  end.

(** [x in container] for a [str] [x]: membership in a list, substring of a
    string, key of a dictionary; [TypeError] otherwise. *)
Definition py_in (x : string) (container : pyval) : outcome bool :=
  match container with
  | PList l => Returned (existsb (py_eq (PStr x)) l)
  | PStr s => Returned (contains x s)
  | PDict d => Returned (match dict_get d x with Some _ => true | None => false end)
  | _ => Raised (PyError "TypeError" "argument is not iterable")
  end.

(** [token.rsplit(".", 1)], when it yields two parts. *)
Fixpoint rsplit_dot (s : string) : option (string * string) :=
  match s with
  | EmptyString => None
  | String c s' =>
      match rsplit_dot s' with
      | Some (message, signature) => Some (String c message, signature)
      | None => if Ascii.eqb c "."%char then Some (EmptyString, s') else None
      end
  end.

(** The libraries the validator calls.  [http_get_json n url] is what the
    [n]-th GET of the process yields: [response.json()], or the exception
    of [get], [raise_for_status] or [json]. *)
Record Lib := {
  PublicKey : Type;
  http_get_json : nat -> string -> outcome pyval;
  get_unverified_header : string -> outcome pydict;     (* jwt.get_unverified_header *)
  construct : pydict -> outcome PublicKey;              (* jwk.construct(key, algorithm="RS256") *)
  base64url_decode : string -> outcome string;
  verify : PublicKey -> string -> string -> outcome bool;
  decode : string -> pydict -> string -> outcome pydict;
    (* jwt.decode(token, key, algorithms=["RS256"], audience=..., options=...)
       with signature, expiry and audience verified and the issuer not *)
  repr : pyval -> string                                (* the text of a value in an f-string *)
}.

(** [f"{v}"]: a [str] is inserted as it is. *)
Definition py_format (lib : Lib) (v : pyval) : string :=
  match v with
  | PStr s => s
  | _ => repr lib v
  end.

(** The process: how many GET requests have been sent. *)
Record World := {
  requests : nat
}.

Record JWTValidator := {
  settings : Settings;
  _jwks_cache : pyval
}.

(** [JWTValidator(settings)] *)
Definition new_validator (settings : Settings) : JWTValidator :=
  {| settings := settings; _jwks_cache := PNone |}.

(** A computation on a validator in a process. *)
Definition M (A : Type) : Type := JWTValidator * World -> (JWTValidator * World) * outcome A.

Definition ret {A} (a : A) : M A := fun s => (s, Returned a).
Definition raise {A} (e : exn) : M A := fun s => (s, Raised e).
Definition bind {A B} (m : M A) (f : A -> M B) : M B :=
  fun s => match m s with
           | (s', Returned a) => f a s'
           | (s', Raised e) => (s', Raised e)
           end.
Definition lift {A} (o : outcome A) : M A := fun s => (s, o).
(** [try: m except Exception as e: h e] *)
Definition try_except {A} (m : M A) (h : exn -> M A) : M A :=
  fun s => match m s with
           | (s', Returned a) => (s', Returned a)
           | (s', Raised e) => h e s'
           end.

Declare Scope py_scope.
Delimit Scope py_scope with py.
Notation "x <- m ;; k" := (bind m (fun x => k))
  (at level 100, m at next level, right associativity) : py_scope.
Notation "m ;;; k" := (bind m (fun _ => k))
  (at level 100, right associativity) : py_scope.
Local Open Scope py_scope.

(** [_fetch_jwks] *)
Definition _fetch_jwks (lib : Lib) : M pyval :=
  fun '(self, w) =>
    if py_truthy (_jwks_cache self) then ((self, w), Returned (_jwks_cache self))
    else
      let w' := {| requests := S (requests w) |} in
      match http_get_json lib (requests w) (jwks_endpoint (settings self)) with
      | Returned jwks =>
          (({| settings := settings self; _jwks_cache := jwks |}, w'), Returned jwks)
      | Raised (HTTPError msg) =>
          ((self, w'), Raised (TokenValidationError ("Unable to fetch JWKS: " +:+ msg)))
      | Raised e => ((self, w'), Raised e)
      end.

Definition AttributeError : exn := PyError "AttributeError" "object has no attribute".

(** The loop [for key in keys: if key.get("kid") == kid: return key]. *)
Fixpoint find_key (keys : list pyval) (kid : pyval) : outcome (option pydict) :=
  match keys with
  | [] => Returned None
  | PDict key :: keys' =>
      if py_eq (dict_get_default key "kid" PNone) kid then Returned (Some key)
      else find_key keys' kid
  | _ :: _ => Raised AttributeError
  end.

(** [_get_signing_key(token, jwks)] *)
Definition _get_signing_key (lib : Lib) (token : string) (jwks : pyval) : outcome pydict :=
  match get_unverified_header lib token with
  | Raised (JWTError msg) => Raised (TokenValidationError ("Invalid token header: " +:+ msg))
  | Raised e => Raised e
  | Returned unverified_header =>
      let kid := dict_get_default unverified_header "kid" PNone in
      if negb (py_truthy kid)
      then Raised (TokenValidationError "Token header missing 'kid' claim")
      else
        let not_found :=
          Raised (TokenValidationError
                    ("Signing key with kid '" +:+ py_format lib kid +:+ "' not found in JWKS")) in
        let search (keys : list pyval) :=
          match find_key keys kid with
          | Returned (Some key) => Returned key
          | Returned None => not_found
          | Raised e => Raised e
          end in
        match jwks with
        | PDict d =>
            match dict_get_default d "keys" (PList []) with
            | PList keys => search keys
            | PStr s => if String.eqb s "" then not_found else Raised AttributeError
            | PDict [] => not_found
            | PDict (_ :: _) => Raised AttributeError
            | _ => Raised (PyError "TypeError" "object is not iterable")
            end
        | _ => Raised AttributeError
        end
  end.

(** The issuers accepted for the tenant: v2.0 and v1.0 endpoints. *)
Definition expected_issuers (settings : Settings) : list string :=
  [ "https://login.microsoftonline.com/" +:+ tenant_id settings +:+ "/v2.0";
    "https://sts.windows.net/" +:+ tenant_id settings +:+ "/" ].

(** Lines 146-156: the manual issuer check. *)
Definition check_issuer (lib : Lib) (settings : Settings) (claims : pydict) : outcome unit :=
  let token_issuer := dict_get_default claims "iss" (PStr "") in
  let expected_issuers := expected_issuers settings in
  if negb (existsb (fun issuer => py_eq token_issuer (PStr issuer)) expected_issuers)
  then Raised (TokenValidationError
                 ("Invalid issuer. Expected one of " +:+
                  repr lib (PList (PStr <$> expected_issuers)) +:+
                  ", got " +:+ py_format lib token_issuer))
  else Returned ().

(** [claims.get("scp", "").split() or claims.get("roles", [])] *)
Definition granted_scopes (claims : pydict) : outcome pyval :=
  match dict_get_default claims "scp" (PStr "") with
  | PStr scp =>
      match split scp with
      | [] => Returned (dict_get_default claims "roles" (PList []))
      | scopes => Returned (PList (PStr <$> scopes))
      end
  | _ => Raised AttributeError
  end.

(** Lines 158-163: the required scope. *)
Definition check_scope (settings : Settings) (claims : pydict) : outcome unit :=
  match granted_scopes claims with
  | Raised e => Raised e
  | Returned scopes =>
      match py_in (required_scope settings) scopes with
      | Raised e => Raised e
      | Returned true => Returned ()
      | Returned false =>
          Raised (TokenValidationError
                    ("Token missing required scope: " +:+ required_scope settings))
      end
  end.

(** [if "alg" not in signing_key: signing_key["alg"] = "RS256"]: the
    dictionary after the statement. *)
Definition ensure_alg (signing_key : pydict) : pydict :=
  match dict_get signing_key "alg" with
  | Some _ => signing_key
  | None => signing_key ++ [("alg", PStr "RS256")]
  end.

(** [d[k] = v] *)
Fixpoint dict_set (d : pydict) (k : string) (v : pyval) : pydict :=
  match d with
  | [] => [(k, v)]
  | (k', v') :: d' =>
      if String.eqb k' k then (k', v) :: d' else (k', v') :: dict_set d' k v
  end.

(** That statement writes into the dictionary [_get_signing_key] returned,
    which is an element of the list [jwks["keys"]]; and [jwks] is the object
    [_jwks_cache] refers to.  So the write is seen in the cache.
    [keys_with_alg keys kid] is the list after it: the first key with the
    [kid] of the token, where the loop of [_get_signing_key] stopped, has
    its ["alg"]. *)
Fixpoint keys_with_alg (keys : list pyval) (kid : pyval) : list pyval :=
  match keys with
  | PDict key :: keys' =>
      if py_eq (dict_get_default key "kid" PNone) kid
      then PDict (ensure_alg key) :: keys'
      else PDict key :: keys_with_alg keys' kid
  | _ => keys
  end.

(** The key set after the write, for the token whose key was found in it. *)
Definition jwks_with_alg (lib : Lib) (token : string) (jwks : pyval) : pyval :=
  match get_unverified_header lib token, jwks with
  | Returned unverified_header, PDict d =>
      match dict_get d "keys" with
      | Some (PList keys) =>
          PDict (dict_set d "keys"
                   (PList (keys_with_alg keys
                             (dict_get_default unverified_header "kid" PNone))))
      | _ => jwks
      end
  | _, _ => jwks
  end.

(** The validator after the write. *)
Definition with_alg (lib : Lib) (token : string) (s : JWTValidator * World)
  : JWTValidator * World :=
  ({| settings := settings (fst s);
      _jwks_cache := jwks_with_alg lib token (_jwks_cache (fst s)) |}, snd s).

Definition _set_alg (lib : Lib) (token : string) : M unit :=
  fun s => (with_alg lib token s, Returned ()).

(** The body of the [try] block of [validate_token]. *)
Definition validate_token_body (lib : Lib) (token : string) : M pydict :=
  jwks <- _fetch_jwks lib ;;
  signing_key <- lift (_get_signing_key lib token jwks) ;;
  _set_alg lib token ;;;
  let signing_key := ensure_alg signing_key in
  public_key <- lift (construct lib signing_key) ;;
  parts <- lift (match rsplit_dot token with
                 | Some parts => Returned parts
                 | None => Raised (PyError "ValueError" "not enough values to unpack")
                 end) ;;
  let '(message, encoded_signature) := parts in
  decoded_signature <- lift (base64url_decode lib encoded_signature) ;;
  valid <- lift (verify lib public_key message decoded_signature) ;;
  (if negb valid then raise (TokenValidationError "Invalid token signature") else ret ()) ;;;
  claims <- (fun s => (s, decode lib token signing_key (api_app_id_uri (settings (fst s))))) ;;
  (fun s => (s, check_issuer lib (settings (fst s)) claims)) ;;;
  (fun s => (s, check_scope (settings (fst s)) claims)) ;;;
  ret claims.

(** [validate_token(token)]: the body under its two handlers,
    [except JWTError] and then [except Exception]. *)
Definition validate_token (lib : Lib) (token : string) : M pydict :=
  try_except (validate_token_body lib token)
    (fun e =>
       match e with
       | JWTError msg => raise (TokenValidationError msg)
       | _ => raise (TokenValidationError ("Token validation error: " +:+ exn_str e))
       end).

Definition dquote : string := String (ascii_of_nat 34) EmptyString.

Definition unauthorized (detail www_authenticate : string) : HTTPException :=
  {| exc_status_code := 401;
     exc_detail := PStr detail;
     exc_headers := [("WWW-Authenticate", www_authenticate)] |}.

(** [get_current_user(credentials, settings)]: a validator is built for the
    call and dropped with it. *)
Definition get_current_user (lib : Lib) (credentials : option string)
    (settings : Settings) (w : World) : World * reply pydict :=
  match credentials with
  | None => (w, Abort (unauthorized "Missing authentication token" "Bearer"))
  | Some token =>
      let validator := new_validator settings in
      match validate_token lib token (validator, w) with
      | ((_, w'), Returned claims) => (w', Done claims)
      | ((_, w'), Raised (TokenValidationError reason)) =>
          (w', Abort (unauthorized tve_message
                        ("Bearer error=" +:+ dquote +:+ reason +:+ dquote)))
      | ((_, w'), Raised _) => (w', Abort (unauthorized "Authentication failed" "Bearer"))
      end
  end.

(** [get_user_oid(claims)] *)
Definition get_user_oid (claims : pydict) : reply pyval :=
  let oid := dict_get_default claims "oid" PNone in
  if negb (py_truthy oid)
  then Abort {| exc_status_code := 401;
                exc_detail := PStr "Token missing required 'oid' claim";
                exc_headers := [] |}
  else Done oid.

End Auth.

(** ** middleware.py: correlation ids *)

Module CorrelationId.

Definition set_correlation_id (request : Request) (cid : string) : Request :=
  {| client := client request; method := method request; path := path request;
     headers := headers request;
     state := {| correlation_id := Some cid; user_oid := user_oid (state request) |} |}.

(** [CorrelationIdMiddleware.dispatch(request, call_next)]; [uuid4] is what
    [str(uuid.uuid4())] yields when it is called.  The request object is
    mutated, so it is returned too. *)
Definition dispatch (request : Request) (call_next : Request -> reply Response)
    (uuid4 : string) : Request * reply Response :=
  let correlation_id :=
    match headers_get (headers request) "X-Correlation-ID" with
    | Some v => if String.eqb v "" then uuid4 else v
    | None => uuid4
    end in
  let request := set_correlation_id request correlation_id in
  match call_next request with
  | Done response =>
      (request, Done (set_response_header response "X-Correlation-ID" correlation_id))
  | failure => (request, failure)
  end.

End CorrelationId.

(** ** main.py: the handler of last resort *)

Module Main.

Definition HTTP_500_INTERNAL_SERVER_ERROR : Z := 500.

(** [general_exception_handler(request, exc)]; the [JSONResponse] is given
    by its status and its content. *)
Definition general_exception_handler (settings : Settings) (request : Request) (exc : exn)
  : Response :=
  {| status_code := HTTP_500_INTERNAL_SERVER_ERROR;
     resp_headers := [];
     content :=
       PDict [("error", PStr "Internal server error");
              ("details", if is_production settings then PDict []
                          else PDict [("message", PStr (exn_str exc))])] |}.

(** The rate limiter the application installs. *)
Definition rate_limit_middleware (settings : Settings) : RateLimit.RateLimitMiddleware :=
  match environment settings with
  | production => RateLimit.new_middleware 100 60
  | _ => RateLimit.new_middleware 1000 60
  end.

End Main.

(** * Properties *)

(** ** The token bucket *)

Section RateLimitFacts.
Import RateLimit.
Local Open Scope Q_scope.

(** The bucket [is_allowed] works on: the client's bucket, or the one the
    [defaultdict] creates. *)
Definition current_bucket (lim : RateLimiter) (request : Request) (t_new : Q) : Bucket :=
  match buckets lim !! _get_client_id request with
  | Some b => b
  | None => {| tokens := inject_Z (rate lim); last_update := t_new |}
  end.

(** The token count after the refill at [now]. *)
Definition refilled_tokens (lim : RateLimiter) (b : Bucket) (now : Q) : Q :=
  py_min (inject_Z (rate lim))
         (tokens b + (now - last_update b) / inject_Z (per lim) * inject_Z (rate lim)).

(** A sequence of [is_allowed] calls, each with its request and its two
    clock readings. *)
Fixpoint run_calls (lim : RateLimiter) (calls : list (Request * Q * Q))
  : RateLimiter * list (outcome (bool * RateInfo)) :=
  match calls with
  | [] => (lim, [])
  | (request, t_new, t_now) :: calls' =>
      let '(lim', res) := is_allowed lim request t_new t_now in
      let '(lim'', ress) := run_calls lim' calls' in
      (lim'', res :: ress)
  end.

(** Whether a call admitted the request; [None] when it raised. *)
Definition verdict (res : outcome (bool * RateInfo)) : option bool :=
  match res with
  | Returned (allowed, _) => Some allowed
  | Raised _ => None
  end.

(** Every bucket of the limiter holds at most [rate] tokens. *)
Definition bounded (lim : RateLimiter) : Prop :=
  forall k b, buckets lim !! k = Some b -> tokens b <= inject_Z (rate lim).

Lemma Qlt_bool_true x y : Qlt_bool x y = true <-> x < y.
Proof.
  unfold Qlt_bool. rewrite negb_true_iff, <- not_true_iff_false, Qle_bool_iff.
  split; [apply Qnot_le_lt | apply Qlt_not_le].
Qed.

Lemma Qlt_bool_false x y : Qlt_bool x y = false <-> y <= x.
Proof.
  unfold Qlt_bool. rewrite negb_false_iff. apply Qle_bool_iff.
Qed.

Lemma py_min_le_l a b : py_min a b <= a.
Proof.
  unfold py_min. destruct (Qlt_bool b a) eqn:E.
  - apply Qlt_bool_true in E. lra.
  - lra.
Qed.

Lemma py_min_Qmin a b : py_min a b == Qmin a b.
Proof.
  unfold py_min. destruct (Qlt_bool b a) eqn:E.
  - apply Qlt_bool_true in E. symmetry. apply Q.min_r. lra.
  - apply Qlt_bool_false in E. symmetry. apply Q.min_l. lra.
Qed.

Lemma py_min_clamped a b : a <= b -> py_min a b = a.
Proof.
  intros H. unfold py_min. destruct (Qlt_bool b a) eqn:E; [|reflexivity].
  apply Qlt_bool_true in E. lra.
Qed.

Lemma is_allowed_rate lim request t_new t_now :
  rate (fst (is_allowed lim request t_new t_now)) = rate lim /\
  per (fst (is_allowed lim request t_new t_now)) = per lim.
Proof.
  unfold is_allowed, _refill_tokens.
  destruct (per lim =? 0)%Z; simpl; [done|].
  destruct (rate lim =? 0)%Z; done.
Qed.

(** What a call that returns does to the limiter. *)
Lemma is_allowed_returns lim request t_new t_now :
  per lim <> 0%Z -> rate lim <> 0%Z ->
  let b := current_bucket lim request t_new in
  let x := refilled_tokens lim b t_now in
  let allowed := Qle_bool 1 x in
  let b' := {| tokens := if allowed then x - 1 else x; last_update := t_now |} in
  is_allowed lim request t_new t_now =
    (set_buckets lim (<[_get_client_id request := b']> (buckets lim)),
     Returned (allowed,
       {| limit := rate lim;
          remaining := py_int (tokens b');
          reset := py_int (t_now + inject_Z (per lim));
          retry_after :=
            if allowed then 0%Z
            else py_int ((1 - x) * (inject_Z (per lim) / inject_Z (rate lim))) |})).
Proof.
  intros Hper Hrate. unfold is_allowed, _refill_tokens, current_bucket, refilled_tokens.
  apply Z.eqb_neq in Hper, Hrate. rewrite Hper, Hrate. simpl.
  destruct (Qle_bool 1 _); reflexivity.
Qed.

Lemma is_allowed_bounded lim request t_new t_now :
  bounded lim -> bounded (fst (is_allowed lim request t_new t_now)).
Proof.
  intros Hb k b. unfold is_allowed, _refill_tokens.
  set (cur := match buckets lim !! _get_client_id request with
              | Some b0 => b0 | None => _ end).
  assert (Hcur : tokens cur <= inject_Z (rate lim)).
  { subst cur. destruct (buckets lim !! _get_client_id request) eqn:E.
    - eapply Hb, E.
    - simpl. lra. }
  destruct (per lim =? 0)%Z; simpl.
  - rewrite lookup_insert. case_decide; [|apply Hb]. by intros [= <-].
  - set (x := py_min _ _). assert (Hx : x <= inject_Z (rate lim)) by apply py_min_le_l.
    destruct (rate lim =? 0)%Z; simpl; rewrite lookup_insert;
      (case_decide; [|apply Hb]); intros [= <-];
      destruct (Qle_bool 1 x); simpl; lra.
Qed.

Lemma run_calls_bounded calls : forall lim,
  bounded lim ->
  bounded (fst (run_calls lim calls)) /\
  rate (fst (run_calls lim calls)) = rate lim /\
  per (fst (run_calls lim calls)) = per lim.
Proof.
  induction calls as [|[[request t_new] t_now] calls IH]; intros lim Hb; simpl; [done|].
  pose proof (is_allowed_bounded lim request t_new t_now Hb) as Hb'.
  pose proof (is_allowed_rate lim request t_new t_now) as [Hr Hp].
  destruct (is_allowed lim request t_new t_now) as [lim' res]. simpl in *.
  destruct (IH lim' Hb') as (IH1 & IH2 & IH3).
  destruct (run_calls lim' calls) as [lim'' ress]. simpl in *.
  repeat split; [done|congruence|congruence].
Qed.

(** With no time elapsed and a count within the capacity, the refill
    changes nothing. *)
Lemma refill_zero_elapsed lim b t :
  per lim <> 0%Z -> last_update b == t -> tokens b <= inject_Z (rate lim) ->
  refilled_tokens lim b t == tokens b.
Proof.
  intros Hper Hlast Hle. unfold refilled_tokens. rewrite py_min_Qmin.
  assert (Hadd : (t - last_update b) / inject_Z (per lim) * inject_Z (rate lim) == 0).
  { rewrite Hlast. unfold Qdiv. ring. }
  rewrite Hadd, Qplus_0_r. apply Q.min_r. exact Hle.
Qed.


Definition sample_request : Request :=
  {| client := Some "203.0.113.7"; method := "GET"; path := "/v1/posts"; headers := [];
     state := {| correlation_id := None; user_oid := None |} |}.


Lemma inject_Z_succ (k : nat) : inject_Z (Z.of_nat (S k)) == inject_Z (Z.of_nat k) + 1.
Proof. rewrite Nat2Z.inj_succ, <- Z.add_1_r, inject_Z_plus. reflexivity. Qed.

Lemma run_calls_cons lim request t_new t_now calls :
  run_calls lim ((request, t_new, t_now) :: calls) =
  let step := is_allowed lim request t_new t_now in
  let rest := run_calls (fst step) calls in
  (fst rest, snd step :: snd rest).
Proof.
  simpl. destruct (is_allowed lim request t_new t_now) as [lim' res]. simpl.
  by destruct (run_calls lim' calls).
Qed.

Lemma current_bucket_written lim request b t_new :
  current_bucket (set_buckets lim (<[_get_client_id request := b]> (buckets lim)))
                 request t_new = b.
Proof. unfold current_bucket. simpl. by rewrite lookup_insert_eq. Qed.

(** [S k] calls in a row at one instant on a bucket holding [k] tokens:
    [k] are admitted, the last is denied, and the bucket is left empty. *)
Lemma burst_drains request t : forall (k : nat) lim,
  (0 < per lim)%Z -> (0 < rate lim)%Z ->
  tokens (current_bucket lim request t) == inject_Z (Z.of_nat k) ->
  last_update (current_bucket lim request t) == t ->
  (Z.of_nat k <= rate lim)%Z ->
  let out := run_calls lim (repeat (request, t, t) (S k)) in
  verdict <$> snd out = (repeat (Some true) k ++ [Some false])%list /\
  rate (fst out) = rate lim /\ per (fst out) = per lim /\
  exists b, buckets (fst out) !! _get_client_id request = Some b /\
            tokens b == 0 /\ last_update b = t.
Proof.
  induction k as [|k IH]; intros lim Hper Hrate Htok Hlast Hle out; subst out.
  - change (repeat (request, t, t) 1) with [(request, t, t)].
    rewrite run_calls_cons. cbn zeta.
    rewrite is_allowed_returns by lia.
    assert (Hx : refilled_tokens lim (current_bucket lim request t) t == 0).
    { rewrite refill_zero_elapsed; [exact Htok|lia|exact Hlast|].
      rewrite Htok, <- Zle_Qle. exact Hle. }
    assert (Hden : Qle_bool 1 (refilled_tokens lim (current_bucket lim request t) t) = false).
    { apply not_true_iff_false. rewrite Qle_bool_iff, Hx. lra. }
    rewrite Hden. cbn. repeat split; try done.
    eexists. split; [apply lookup_insert_eq|]. by split.
  - change (repeat (request, t, t) (S (S k)))
      with ((request, t, t) :: repeat (request, t, t) (S k)).
    rewrite run_calls_cons. cbn zeta.
    rewrite is_allowed_returns by lia.
    assert (Hx : refilled_tokens lim (current_bucket lim request t) t
                 == inject_Z (Z.of_nat (S k))).
    { rewrite refill_zero_elapsed; [exact Htok|lia|exact Hlast|].
      rewrite Htok, <- Zle_Qle. exact Hle. }
    assert (Hadm : Qle_bool 1 (refilled_tokens lim (current_bucket lim request t) t) = true).
    { rewrite Qle_bool_iff, Hx, inject_Z_succ.
      assert (0 <= inject_Z (Z.of_nat k)) by (rewrite <- (Zle_Qle 0); lia). lra. }
    rewrite Hadm. cbn [fst snd].
    match goal with
    | |- context [run_calls ?l (repeat _ (S k))] => specialize (IH l)
    end.
    rewrite !current_bucket_written in IH.
    cbn [rate per set_buckets tokens last_update] in IH.
    destruct IH as (IH1 & IH2 & IH3 & IH4); try done.
    { rewrite Hx, inject_Z_succ. ring. }
    { lia. }
    rewrite fmap_cons, IH1. repeat split; done.
Qed.

(** The statement of C5 for a limiter [RateLimiter(c, w)] and one client at
    the instant [t]. *)
Definition burst_then_refill (c w : Z) (request : Request) (t : Q) : Prop :=
  let out := run_calls (new_limiter c w) (repeat (request, t, t) (Z.to_nat c + 1)) in
  verdict <$> snd out = (repeat (Some true) (Z.to_nat c) ++ [Some false])%list /\
  exists b, buckets (fst out) !! _get_client_id request = Some b /\
    forall t', t + inject_Z w <= t' ->
      exists b', _refill_tokens (fst out) b t' = Returned b' /\ tokens b' = inject_Z c.

(** C5, as amended. For a limiter of capacity [c] and window [w] between 1
    and 2^53, a new bucket admits exactly [c] calls made at one instant and
    denies the next one; a refill [w] seconds later or more leaves exactly
    [c] tokens.  (The counts of the burst are whole numbers and the refill
    after a full window is clamped to [c]; up to 2^53 binary64 holds them
    as they are.) *)
Theorem full_bucket_burst_then_refill (c w : Z) (request : Request) (t : Q) :
  (0 < c <= 2 ^ 53)%Z -> (0 < w <= 2 ^ 53)%Z -> burst_then_refill c w request t.
Proof.
  intros [Hc _] [Hw _]. unfold burst_then_refill.
  replace (Z.to_nat c + 1)%nat with (S (Z.to_nat c)) by lia.
  pose proof (burst_drains request t (Z.to_nat c) (new_limiter c w)) as H.
  cbv zeta in H. cbn [per rate new_limiter] in H.
  destruct H as (Hflags & Hr & Hp & b & Hb & Htok & Hlast); try lia.
  { cbn. rewrite Z2Nat.id by lia. reflexivity. }
  { reflexivity. }
  cbv zeta. split; [exact Hflags|].
  exists b. split; [exact Hb|]. intros t' Ht'.
  unfold _refill_tokens. rewrite Hp, Hr.
  destruct (Z.eqb_spec w 0) as [->|_]; [lia|].
  eexists. split; [reflexivity|]. cbn [tokens].
  apply py_min_clamped. rewrite Htok, Hlast.
  assert (Hw' : 0 < inject_Z w) by (rewrite <- (Zlt_Qlt 0); lia).
  assert (Hc' : 0 <= inject_Z c) by (rewrite <- (Zle_Qle 0); lia).
  assert (H1 : 1 <= (t' - t) / inject_Z w).
  { apply Qle_shift_div_l; [exact Hw'|]. lra. }
  apply (Qmult_le_compat_r _ _ (inject_Z c)) in H1; [|exact Hc']. lra.
Qed.

Lemma full_bucket_burst_then_refill_witness :
  (0 < 3 <= 2 ^ 53)%Z /\ (0 < 60 <= 2 ^ 53)%Z /\ burst_then_refill 3 60 sample_request 0.
Proof.
  split; [lia|]. split; [lia|].
  apply (full_bucket_burst_then_refill 3 60 sample_request 0); lia.
Defined.

(** C5 as stated fails for a limiter of capacity 0: its first call raises
    [ZeroDivisionError] (at [self.per / self.rate]) and is not a denial. *)
Lemma zero_capacity_call_raises :
  snd (run_calls (new_limiter 0 60) (repeat (sample_request, 0, 0) (Z.to_nat 0 + 1)))
    = [Raised ZeroDivisionError] /\
  ~ burst_then_refill 0 60 sample_request 0.
Proof.
  split; [vm_compute; reflexivity|].
  intros [Hflags _]. vm_compute in Hflags. discriminate Hflags.
Qed.

(** [int(x)] rounds a non-negative number down. *)
Lemma py_int_floor x :
  0 <= x -> inject_Z (py_int x) <= x /\ x < inject_Z (py_int x) + 1.
Proof.
  intros Hx. assert (E : py_int x = Qfloor x).
  { destruct x as [n d]. unfold py_int, Qfloor. simpl.
    apply Z.quot_div_nonneg; [|lia].
    unfold Qle in Hx. simpl in Hx. lia. }
  rewrite E. split; [apply Qfloor_le|].
  pose proof (Qlt_floor x) as H. rewrite inject_Z_plus in H. exact H.
Qed.


Lemma py_int_nonneg x : 0 <= x -> (0 <= py_int x)%Z.
Proof.
  intros Hx. destruct (py_int_floor x Hx) as [_ Hlt].
  assert (H : inject_Z 0 < inject_Z (py_int x + 1)).
  { rewrite inject_Z_plus. change (inject_Z 0) with 0. change (inject_Z 1) with 1. lra. }
  rewrite <- Zlt_Qlt in H. lia.
Qed.

Lemma py_int_le x n : 0 <= x -> x <= inject_Z n -> (py_int x <= n)%Z.
Proof.
  intros Hx Hn. destruct (py_int_floor x Hx) as [Hle _].
  rewrite Zle_Qle. lra.
Qed.

Lemma py_int_small x : 0 <= x -> x < 1 -> py_int x = 0%Z.
Proof.
  intros Hx H1. pose proof (py_int_nonneg x Hx) as H0.
  destruct (py_int_floor x Hx) as [Hle _].
  assert (H : inject_Z (py_int x) < inject_Z 1) by (change (inject_Z 1) with 1; lra).
  rewrite <- Zlt_Qlt in H. lia.
Qed.

Lemma py_int_opp x : py_int (- x) = (- py_int x)%Z.
Proof. destruct x as [n d]. unfold py_int. simpl. apply Z.quot_opp_l. lia. Qed.

Lemma py_int_nonneg_floor x : 0 <= x -> py_int x = Qfloor x.
Proof.
  intros Hx. destruct x as [n d]. unfold py_int, Qfloor. simpl.
  apply Z.quot_div_nonneg; [|lia]. unfold Qle in Hx. simpl in Hx. lia.
Qed.

(** [int] gives equal rationals the same integer. *)
Lemma py_int_Qeq x y : x == y -> py_int x = py_int y.
Proof.
  intros E. destruct (Qlt_le_dec x 0) as [Hneg|Hpos].
  - assert (H : py_int (- x) = py_int (- y)).
    { rewrite !py_int_nonneg_floor by lra. by rewrite E. }
    rewrite !py_int_opp in H. lia.
  - rewrite !py_int_nonneg_floor by lra. by rewrite E.
Qed.

Lemma py_int_quot (a b : Z) : (0 < b)%Z -> py_int (inject_Z a / inject_Z b) = (a ÷ b)%Z.
Proof.
  intros Hb. destruct b as [|b|b]; try lia.
  unfold py_int, Qdiv, Qinv, inject_Z, Qmult. simpl. by rewrite Z.mul_1_r.
Qed.




(** A limiter of capacity 10 per 60 seconds whose client has used all ten
    tokens at time 0. *)
Definition drained_limiter : RateLimiter :=
  fst (run_calls (new_limiter 10 60) (repeat (sample_request, 0, 0) 10)).



(** C8. A call for one client leaves the bucket of a client with another
    identifier as it was (or absent). *)
Theorem is_allowed_other_client_untouched
    (lim : RateLimiter) (r1 r2 : Request) (t_new t_now : Q) :
  _get_client_id r1 <> _get_client_id r2 ->
  buckets (fst (is_allowed lim r1 t_new t_now)) !! _get_client_id r2
    = buckets lim !! _get_client_id r2.
Proof.
  intros Hne. unfold is_allowed, _refill_tokens.
  destruct (per lim =? 0)%Z; cbn; [by rewrite lookup_insert_ne|].
  destruct (rate lim =? 0)%Z; cbn; by rewrite lookup_insert_ne.
Qed.

Definition other_request : Request :=
  {| client := Some "198.51.100.2"; method := "GET"; path := "/v1/posts"; headers := [];
     state := {| correlation_id := None; user_oid := Some "user-1" |} |}.

Lemma is_allowed_other_client_untouched_witness :
  _get_client_id sample_request <> _get_client_id other_request /\
  buckets (fst (is_allowed drained_limiter sample_request 0 1))
    !! _get_client_id other_request
  = buckets drained_limiter !! _get_client_id other_request.
Proof.
  assert (Hne : _get_client_id sample_request <> _get_client_id other_request)
    by (vm_compute; discriminate).
  split; [exact Hne|].
  exact (is_allowed_other_client_untouched drained_limiter sample_request other_request
           0 1 Hne).
Defined.

(** A sequence of requests through the middleware. *)
Fixpoint run_dispatch (mw : RateLimitMiddleware) (call_next : Request -> reply Response)
    (calls : list (Request * Q * Q)) : RateLimitMiddleware * list (reply Response) :=
  match calls with
  | [] => (mw, [])
  | (request, t_new, t_now) :: calls' =>
      let step := dispatch mw request call_next t_new t_now in
      let rest := run_dispatch (fst step) call_next calls' in
      (fst rest, snd step :: snd rest)
  end.

(** C7. A request for a health-check path goes to the next handler and its
    reply comes back as it is; the limiters are not touched.  So it is for
    any number of such requests, whatever the buckets hold. *)
Theorem health_checks_bypass_rate_limit
    (mw : RateLimitMiddleware) (call_next : Request -> reply Response) :
  (forall request t_new t_now,
     path request ∈ health_paths ->
     dispatch mw request call_next t_new t_now = (mw, call_next request)) /\
  (forall calls : list (Request * Q * Q),
     Forall (fun c => path (fst (fst c)) ∈ health_paths) calls ->
     run_dispatch mw call_next calls = (mw, (fun c => call_next (fst (fst c))) <$> calls)).
Proof.
  assert (Hone : forall request t_new t_now,
     path request ∈ health_paths ->
     dispatch mw request call_next t_new t_now = (mw, call_next request)).
  { intros request t_new t_now Hpath. unfold dispatch.
    by rewrite bool_decide_eq_true_2. }
  split; [exact Hone|].
  induction 1 as [|[[request t_new] t_now] calls Hpath _ IH]; [done|].
  cbn [run_dispatch]. cbv zeta. rewrite (Hone _ _ _ Hpath). cbn [fst snd].
  rewrite IH. reflexivity.
Qed.

Definition health_request : Request :=
  {| client := Some "203.0.113.7"; method := "GET"; path := "/health/ready"; headers := [];
     state := {| correlation_id := None; user_oid := None |} |}.

Definition ok_response : Response :=
  {| status_code := 200; resp_headers := []; content := PDict [("status", PStr "ready")] |}.

Lemma health_checks_bypass_rate_limit_witness :
  path health_request ∈ health_paths /\
  dispatch (new_middleware 100 60) health_request (fun _ => Done ok_response) 0 0
    = (new_middleware 100 60, Done ok_response).
Proof.
  assert (Hpath : path health_request ∈ health_paths)
    by (apply (bool_decide_unpack _); vm_compute; exact I).
  split; [exact Hpath|].
  exact (proj1 (health_checks_bypass_rate_limit (new_middleware 100 60)
                  (fun _ => Done ok_response)) health_request 0 0 Hpath).
Defined.

End RateLimitFacts.

(** ** Token validation *)

Section AuthFacts.
Import Auth.
Local Open Scope py_scope.

(** A computation that leaves the validator and the process as they are. *)
Definition stateless {A} (m : M A) : Prop := forall s, fst (m s) = s.

Lemma stateless_lift {A} (o : outcome A) : stateless (lift o).
Proof. by intros s. Qed.

Lemma stateless_ret {A} (a : A) : stateless (ret a).
Proof. by intros s. Qed.

Lemma stateless_raise {A} (e : exn) : stateless (@raise A e).
Proof. by intros s. Qed.

Lemma stateless_bind {A B} (m : M A) (f : A -> M B) :
  stateless m -> (forall a, stateless (f a)) -> stateless (bind m f).
Proof.
  intros Hm Hf s. unfold bind. specialize (Hm s).
  destruct (m s) as [s' [a|e]]; simpl in *; subst; [apply Hf|done].
Qed.

Lemma fst_bind {A B} (m : M A) (f : A -> M B) s :
  (forall a, stateless (f a)) -> fst (bind m f s) = fst (m s).
Proof.
  intros Hf. unfold bind. destruct (m s) as [s' [a|e]]; simpl; [apply Hf|done].
Qed.

(** The steps of a validation after the write of ["alg"] leave the state
    as it is. *)
Lemma after_set_alg_stateless lib token (signing_key : pydict) :
  stateless
    (bind (lift (construct lib signing_key)) (fun public_key =>
     bind (lift (match rsplit_dot token with
                 | Some parts => Returned parts
                 | None => Raised (PyError "ValueError" "not enough values to unpack")
                 end)) (fun parts =>
     let '(message, encoded_signature) := parts in
     bind (lift (base64url_decode lib encoded_signature)) (fun decoded_signature =>
     bind (lift (verify lib public_key message decoded_signature)) (fun valid =>
     bind (if negb valid then raise (TokenValidationError "Invalid token signature")
           else ret ()) (fun _ =>
     bind (fun s => (s, decode lib token signing_key (api_app_id_uri (settings (fst s)))))
          (fun claims =>
     bind (fun s => (s, check_issuer lib (settings (fst s)) claims)) (fun _ =>
     bind (fun s => (s, check_scope (settings (fst s)) claims)) (fun _ =>
     ret claims))))))))).
Proof.
  apply stateless_bind; [apply stateless_lift|]. intros public_key.
  apply stateless_bind; [apply stateless_lift|]. intros [message encoded_signature].
  apply stateless_bind; [apply stateless_lift|]. intros decoded_signature.
  apply stateless_bind; [apply stateless_lift|]. intros valid.
  apply stateless_bind.
  { destruct (negb valid); [apply stateless_raise|apply stateless_ret]. }
  intros _. apply stateless_bind; [by intros ?|]. intros claims.
  apply stateless_bind; [by intros ?|]. intros _.
  apply stateless_bind; [by intros ?|]. intros _. apply stateless_ret.
Qed.

(** Only the JWKS fetch and the write of ["alg"] into the key that was found
    change the state of a validation. *)
Lemma validate_token_state lib token s :
  fst (validate_token lib token s) =
    match _fetch_jwks lib s with
    | (s1, Returned jwks) =>
        match _get_signing_key lib token jwks with
        | Returned _ => with_alg lib token s1
        | Raised _ => s1
        end
    | (s1, Raised _) => s1
    end.
Proof.
  transitivity (fst (validate_token_body lib token s)).
  { unfold validate_token, try_except.
    destruct (validate_token_body lib token s) as [s' [claims|e]]; [done|].
    by destruct e. }
  unfold validate_token_body. unfold bind at 1.
  destruct (_fetch_jwks lib s) as [s1 [jwks|e]]; [|done].
  unfold bind at 1, lift at 1.
  destruct (_get_signing_key lib token jwks) as [signing_key|e]; [|done].
  unfold bind at 1, _set_alg at 1.
  apply (after_set_alg_stateless lib token (ensure_alg signing_key)).
Qed.

(** A validation sends no request but the one of the JWKS fetch. *)
Lemma validate_token_requests lib token s :
  snd (fst (validate_token lib token s)) = snd (fst (_fetch_jwks lib s)).
Proof.
  rewrite validate_token_state.
  destruct (_fetch_jwks lib s) as [s1 [jwks|e]]; [|done].
  by destruct (_get_signing_key lib token jwks).
Qed.

Lemma fetch_jwks_settings lib s :
  settings (fst (fst (_fetch_jwks lib s))) = settings (fst s).
Proof.
  destruct s as [self w]. unfold _fetch_jwks.
  destruct (py_truthy (_jwks_cache self)); [done|].
  destruct (http_get_json lib _ _) as [jwks|[]]; done.
Qed.

(** [validate_token] raises nothing but [TokenValidationError]. *)
Lemma validate_token_raises lib token s s' e :
  validate_token lib token s = (s', Raised e) -> exists reason, e = TokenValidationError reason.
Proof.
  unfold validate_token, try_except.
  destruct (validate_token_body lib token s) as [s1 [claims|e1]]; [done|].
  destruct e1; unfold raise; intros [= _ <-]; eauto.
Qed.

(** What [validate_token] returns went through every check. *)
Lemma validate_token_returns lib token s s' claims :
  validate_token lib token s = (s', Returned claims) ->
  (exists signing_key,
     decode lib token signing_key (api_app_id_uri (settings (fst s))) = Returned claims) /\
  check_issuer lib (settings (fst s)) claims = Returned () /\
  check_scope (settings (fst s)) claims = Returned ().
Proof.
  unfold validate_token, try_except.
  destruct (validate_token_body lib token s) as [s1 [claims1|e1]] eqn:Hbody;
    [|destruct e1; unfold raise; discriminate].
  intros [= -> ->]. revert Hbody.
  unfold validate_token_body, bind, lift, ret, raise, _set_alg, with_alg.
  pose proof (fetch_jwks_settings lib s) as Hset.
  destruct (_fetch_jwks lib s) as [s2 [jwks|?]]; [|discriminate]. simpl in Hset.
  destruct (_get_signing_key lib token jwks) as [signing_key|?]; [|discriminate].
  cbn [fst snd settings].
  destruct (construct lib (ensure_alg signing_key)) as [public_key|?]; [|discriminate].
  destruct (rsplit_dot token) as [[message encoded_signature]|]; [|discriminate].
  destruct (base64url_decode lib encoded_signature) as [decoded|?]; [|discriminate].
  destruct (verify lib public_key message decoded) as [[|]|?]; simpl; try discriminate.
  destruct (decode lib token (ensure_alg signing_key) _) as [claims1|?] eqn:Hdec;
    [|discriminate].
  destruct (check_issuer lib _ claims1) as [[]|?] eqn:Hiss; [|discriminate].
  destruct (check_scope _ claims1) as [[]|?] eqn:Hscope; [|discriminate].
  intros [= <- <-]. rewrite Hset in Hdec, Hiss, Hscope. eauto.
Qed.

Lemma py_eq_str (x : string) (v : pyval) : py_eq (PStr x) v = true <-> v = PStr x.
Proof.
  destruct v; simpl; try (split; [discriminate|discriminate]).
  rewrite String.eqb_eq. split; [by intros ->|by intros [= ->]].
Qed.

Lemma existsb_py_eq (x : string) (l : list pyval) :
  existsb (py_eq (PStr x)) l = true <-> PStr x ∈ l.
Proof.
  rewrite existsb_exists. split.
  - intros (v & Hin & E). apply py_eq_str in E. subst. by apply list_elem_of_In.
  - intros H. exists (PStr x). split; [by apply list_elem_of_In|by apply py_eq_str].
Qed.

Lemma elem_of_fmap_PStr (x : string) (l : list string) : PStr x ∈ PStr <$> l <-> x ∈ l.
Proof.
  rewrite list_elem_of_fmap. split.
  - by intros (y & [= ->] & Hy).
  - intros H. by exists x.
Qed.

(** The token names the required scope neither in the space-separated
    ["scp"] claim nor in the ["roles"] list (an absent claim counts as
    empty). *)
Definition lacks_scope (required : string) (claims : pydict) : Prop :=
  exists scp roles,
    dict_get_default claims "scp" (PStr "") = PStr scp /\
    dict_get_default claims "roles" (PList []) = PList roles /\
    (required ∉ split scp) /\ (PStr required ∉ roles).

(** The token names the required scope in ["scp"] or in ["roles"]. *)
Definition names_scope (required : string) (claims : pydict) : Prop :=
  exists scp roles,
    dict_get_default claims "scp" (PStr "") = PStr scp /\
    dict_get_default claims "roles" (PList []) = PList roles /\
    ((required ∈ split scp) \/ (PStr required ∈ roles)).

Lemma check_scope_by_scp settings claims scp :
  dict_get_default claims "scp" (PStr "") = PStr scp -> split scp <> [] ->
  (check_scope settings claims = Returned () <-> required_scope settings ∈ split scp).
Proof.
  intros Hscp Hne. unfold check_scope, granted_scopes. rewrite Hscp.
  destruct (split scp) as [|sc scs] eqn:E; [done|].
  rewrite <- elem_of_fmap_PStr, <- existsb_py_eq. unfold py_in.
  destruct (existsb _ _); split; done.
Qed.

Lemma check_scope_by_roles settings claims scp roles :
  dict_get_default claims "scp" (PStr "") = PStr scp -> split scp = [] ->
  dict_get_default claims "roles" (PList []) = PList roles ->
  (check_scope settings claims = Returned () <-> PStr (required_scope settings) ∈ roles).
Proof.
  intros Hscp Hnil Hroles. unfold check_scope, granted_scopes.
  rewrite Hscp, Hnil, Hroles, <- existsb_py_eq. unfold py_in.
  destruct (existsb _ _); split; done.
Qed.

Lemma lacks_scope_rejected settings claims :
  lacks_scope (required_scope settings) claims ->
  check_scope settings claims <> Returned ().
Proof.
  intros (scp & roles & Hscp & Hroles & Hns & Hnr) Hok.
  destruct (split scp) as [|sc scs] eqn:E.
  - apply (check_scope_by_roles _ _ _ _ Hscp E Hroles) in Hok. exact (Hnr Hok).
  - apply (check_scope_by_scp _ _ _ Hscp) in Hok; [|by rewrite E].
    rewrite E in Hok. exact (Hns Hok).
Qed.

(** C1, as amended. A token whose claims name the required scope neither in
    ["scp"] nor in ["roles"] is rejected with a [TokenValidationError],
    whatever the signature check and the other library calls say.  The
    scope check passes exactly when the scope is one of the entries of
    ["scp"] or, for a token whose ["scp"] has no entry, one of its
    ["roles"]. *)
Theorem scope_is_required :
  (forall lib token s,
     (forall key aud claims,
        decode lib token key aud = Returned claims ->
        lacks_scope (required_scope (settings (fst s))) claims) ->
     exists s' reason,
       validate_token lib token s = (s', Raised (TokenValidationError reason))) /\
  (forall settings claims scp,
     dict_get_default claims "scp" (PStr "") = PStr scp ->
     (split scp <> [] ->
      (check_scope settings claims = Returned () <-> required_scope settings ∈ split scp)) /\
     (split scp = [] ->
      forall roles, dict_get_default claims "roles" (PList []) = PList roles ->
      (check_scope settings claims = Returned ()
       <-> PStr (required_scope settings) ∈ roles))).
Proof.
  split.
  - intros lib token s Hlacks.
    destruct (validate_token lib token s) as [s' [claims|e]] eqn:Hv.
    + destruct (validate_token_returns _ _ _ _ _ Hv) as ([key Hdec] & _ & Hscope).
      by apply Hlacks, lacks_scope_rejected in Hdec.
    + destruct (validate_token_raises _ _ _ _ _ Hv) as [reason ->]. eauto.
  - intros settings claims scp Hscp. split.
    + by apply check_scope_by_scp.
    + intros Hnil roles Hroles. by apply (check_scope_by_roles _ _ scp).
Qed.

(** A tenant's settings and a stand-in for the libraries in which the key
    is found, the signature verifies and the token decodes to [claims]. *)
Definition sample_settings : Settings :=
  {| tenant_id := "12345678-1234-1234-1234-123456789012";
     api_app_id_uri := "api://test-client-id";
     required_scope := "access_as_user";
     jwks_uri := None;
     environment := production |}.

Definition accepting_lib (claims : pydict) : Lib :=
  {| PublicKey := unit;
     http_get_json := fun _ _ =>
       Returned (PDict [("keys", PList [PDict [("kid", PStr "key-1"); ("kty", PStr "RSA")]])]);
     get_unverified_header := fun _ => Returned [("alg", PStr "RS256"); ("kid", PStr "key-1")];
     construct := fun _ => Returned ();
     base64url_decode := fun s => Returned s;
     verify := fun _ _ _ => Returned true;
     decode := fun _ _ _ => Returned claims;
     repr := fun _ => "[...]" |}.

Definition sample_token : string := "header.payload.signature".

Definition new_process : World := {| requests := 0 |}.

Definition claims_without_scope : pydict :=
  [("iss", PStr "https://login.microsoftonline.com/12345678-1234-1234-1234-123456789012/v2.0");
   ("aud", PStr "api://test-client-id");
   ("oid", PStr "user-1");
   ("scp", PStr "User.Read profile")].

Lemma scope_is_required_witness :
  lacks_scope "access_as_user" claims_without_scope /\
  exists s' reason,
    validate_token (accepting_lib claims_without_scope) sample_token
      (new_validator sample_settings, new_process)
    = (s', Raised (TokenValidationError reason)).
Proof.
  assert (Hlacks : lacks_scope "access_as_user" claims_without_scope).
  { exists "User.Read profile", []. repeat split.
    - apply (bool_decide_unpack _). vm_compute. exact I.
    - apply not_elem_of_nil. }
  split; [exact Hlacks|].
  apply (proj1 scope_is_required (accepting_lib claims_without_scope) sample_token
           (new_validator sample_settings, new_process)).
  intros key aud claims [= <-]. exact Hlacks.
Defined.

(** A token whose ["scp"] names other scopes and whose ["roles"] name the
    required one. *)
Definition claims_with_role : pydict :=
  [("iss", PStr "https://login.microsoftonline.com/12345678-1234-1234-1234-123456789012/v2.0");
   ("aud", PStr "api://test-client-id");
   ("oid", PStr "user-1");
   ("scp", PStr "User.Read");
   ("roles", PList [PStr "access_as_user"])].

(** C1 as stated fails in its second half: the scope is among the token's
    roles, and the check and the validation reject the token, because
    ["roles"] is read only when ["scp"] has no entry. *)
Lemma role_ignored_when_scp_present :
  names_scope (required_scope sample_settings) claims_with_role /\
  check_scope sample_settings claims_with_role
    = Raised (TokenValidationError "Token missing required scope: access_as_user") /\
  snd (validate_token (accepting_lib claims_with_role) sample_token
         (new_validator sample_settings, new_process))
    = Raised (TokenValidationError "Token validation error: Token validation failed").
Proof.
  split; [|split; vm_compute; reflexivity].
  exists "User.Read", [PStr "access_as_user"]. repeat split. right. left.
Qed.

(** Whether the reason of a failure speaks of the issuer. *)
Definition names_issuer (reason : string) : bool := contains "issuer" (lower reason).

Definition claims_with_foreign_issuer : pydict :=
  [("iss", PStr "https://login.microsoftonline.com/99999999-0000-0000-0000-000000000000/v2.0");
   ("aud", PStr "api://test-client-id");
   ("oid", PStr "user-1");
   ("scp", PStr "access_as_user")].

(** Every [TokenValidationError] raised inside the [try] block of
    [validate_token] is caught by its [except Exception] and raised anew
    with the text of [str(e)], which is the message and not the reason. *)
Lemma validate_token_masks_reason lib token s s' reason :
  validate_token_body lib token s = (s', Raised (TokenValidationError reason)) ->
  validate_token lib token s
    = (s', Raised (TokenValidationError "Token validation error: Token validation failed")).
Proof.
  intros Hbody. unfold validate_token, try_except. by rewrite Hbody.
Qed.

(** A token that is returned has an issuer of the allow-list. *)
Lemma validate_token_issuer_allowed lib token s s' claims :
  validate_token lib token s = (s', Returned claims) ->
  exists issuer, issuer ∈ expected_issuers (settings (fst s)) /\
                 dict_get_default claims "iss" (PStr "") = PStr issuer.
Proof.
  intros Hv. destruct (validate_token_returns _ _ _ _ _ Hv) as (_ & Hiss & _).
  unfold check_issuer in Hiss.
  destruct (existsb _ _) eqn:E; [|discriminate].
  apply existsb_exists in E as (issuer & Hin & Heq).
  exists issuer. split; [by apply list_elem_of_In|].
  destruct (dict_get_default claims "iss" (PStr "")); try discriminate.
  simpl in Heq. apply String.eqb_eq in Heq. by subst.
Qed.

(** C2 (the code departs from it). A token that passes every check but has
    the issuer of another tenant: the issuer check raises "Invalid issuer
    ...", and what [validate_token] raises in the end gives as its reason
    the text of the exception class, which does not speak of the issuer. *)
Theorem invalid_issuer_reason_is_lost :
  let lib := accepting_lib claims_with_foreign_issuer in
  (exists reason,
     check_issuer lib sample_settings claims_with_foreign_issuer
       = Raised (TokenValidationError reason) /\
     names_issuer reason = true) /\
  (exists s',
     validate_token lib sample_token (new_validator sample_settings, new_process)
       = (s', Raised (TokenValidationError
                        "Token validation error: Token validation failed"))) /\
  names_issuer "Token validation error: Token validation failed" = false.
Proof.
  cbv zeta. split; [|split].
  - eexists. split; vm_compute; reflexivity.
  - eexists. vm_compute. reflexivity.
  - vm_compute. reflexivity.
Qed.

(** A validator that has the key set does not fetch it again. *)
Lemma fetch_jwks_cached lib self w :
  py_truthy (_jwks_cache self) = true ->
  _fetch_jwks lib (self, w) = ((self, w), Returned (_jwks_cache self)).
Proof. intros H. unfold _fetch_jwks. by rewrite H. Qed.

Definition valid_claims : pydict :=
  [("iss", PStr "https://sts.windows.net/12345678-1234-1234-1234-123456789012/");
   ("aud", PStr "api://test-client-id");
   ("oid", PStr "user-1");
   ("scp", PStr "access_as_user")].

(** C3 (the code departs from it). [get_current_user] builds a validator,
    with an empty cache, for each request; so every validation sends one GET
    to the JWKS endpoint, and two successful validations in a process send
    two. *)
Theorem every_validation_fetches_jwks :
  (forall lib token settings w,
     requests (fst (get_current_user lib (Some token) settings w)) = S (requests w)) /\
  (let lib := accepting_lib valid_claims in
   let first := get_current_user lib (Some sample_token) sample_settings new_process in
   let second := get_current_user lib (Some sample_token) sample_settings (fst first) in
   snd first = Done valid_claims /\ snd second = Done valid_claims /\
   requests (fst second) = 2%nat).
Proof.
  split.
  - intros lib token settings w. unfold get_current_user.
    pose proof (validate_token_requests lib token (new_validator settings, w)) as Hst.
    destruct (validate_token lib token (new_validator settings, w)) as [[v w'] res].
    assert (Hw : requests w' = S (requests w)).
    { cbn [fst snd] in Hst. rewrite Hst.
      unfold _fetch_jwks. simpl.
      destruct (http_get_json lib _ _) as [jwks|[]]; reflexivity. }
    destruct res as [claims|[]]; exact Hw.
  - vm_compute. repeat split; reflexivity.
Qed.

End AuthFacts.

(** ** The handler of last resort *)

Section MainFacts.
Import Main.

(** The ["details"] field of an error response. *)
Definition details_of (response : Response) : option pyval :=
  match content response with
  | PDict d => dict_get d "details"
  | _ => None
  end.

Definition with_environment (env : Environment) : Settings :=
  {| tenant_id := "12345678-1234-1234-1234-123456789012";
     api_app_id_uri := "api://test-client-id";
     required_scope := "access_as_user";
     jwks_uri := None;
     environment := env |}.

Definition failing_request : Request :=
  {| client := Some "203.0.113.7"; method := "GET"; path := "/v1/posts"; headers := [];
     state := {| correlation_id := None; user_oid := None |} |}.

(** C9, as amended. Whatever the exception, the response has status 500;
    its details are the empty object when the environment is production,
    and hold the text of the exception in development and in staging. *)
Theorem unhandled_exception_response (settings : Settings) (request : Request) (exc : exn) :
  let response := general_exception_handler settings request exc in
  status_code response = 500%Z /\
  (environment settings = production -> details_of response = Some (PDict [])) /\
  (environment settings <> production ->
   details_of response = Some (PDict [("message", PStr (exn_str exc))])).
Proof.
  cbv zeta. unfold general_exception_handler, details_of, is_production. simpl.
  split; [reflexivity|]. split.
  - by intros ->.
  - intros Hne. by destruct (environment settings).
Qed.

Lemma unhandled_exception_response_witness :
  environment (with_environment production) = production /\
  environment (with_environment development) <> production /\
  details_of (general_exception_handler (with_environment production) failing_request
                (PyError "RuntimeError" "database is locked"))
    = Some (PDict []) /\
  details_of (general_exception_handler (with_environment development) failing_request
                (PyError "RuntimeError" "database is locked"))
    = Some (PDict [("message", PStr "database is locked")]).
Proof.
  assert (Hp : environment (with_environment production) = production) by reflexivity.
  assert (Hd : environment (with_environment development) <> production) by discriminate.
  split; [exact Hp|]. split; [exact Hd|]. split.
  - exact (proj1 (proj2 (unhandled_exception_response (with_environment production)
                           failing_request (PyError "RuntimeError" "database is locked"))) Hp).
  - exact (proj2 (proj2 (unhandled_exception_response (with_environment development)
                           failing_request (PyError "RuntimeError" "database is locked"))) Hd).
Defined.

(** C9 as stated fails in staging: the environment is not development, and
    the details carry the text of the exception. *)
Lemma staging_response_has_details :
  environment (with_environment staging) <> development /\
  details_of (general_exception_handler (with_environment staging) failing_request
                (PyError "RuntimeError" "database is locked"))
    = Some (PDict [("message", PStr "database is locked")]) /\
  details_of (general_exception_handler (with_environment staging) failing_request
                (PyError "RuntimeError" "database is locked"))
    <> Some (PDict []).
Proof.
  split; [discriminate|]. split; [reflexivity|]. vm_compute. discriminate.
Qed.

End MainFacts.

(** ** Correlation ids *)

Section CorrelationIdFacts.
Import CorrelationId.

Lemma headers_find_replace hs k value :
  is_Some (headers_find hs k) -> headers_find (headers_replace hs k value) k = Some value.
Proof.
  induction hs as [|[k' v] hs IH]; simpl; [by intros [? ?]|].
  destruct (String.eqb k' k) eqn:E; simpl.
  - by rewrite String.eqb_refl.
  - rewrite E. exact IH.
Qed.

Lemma headers_find_append hs k value :
  headers_find hs k = None -> headers_find (hs ++ [(k, value)]) k = Some value.
Proof.
  induction hs as [|[k' v] hs IH]; simpl.
  - by rewrite String.eqb_refl.
  - destruct (String.eqb k' k); [discriminate|exact IH].
Qed.

(** A header that was set is the one that is read. *)
Lemma headers_get_set hs key value :
  headers_get (headers_set hs key value) key = Some value.
Proof.
  unfold headers_get, headers_set.
  destruct (headers_find hs (lower key)) eqn:E.
  - apply headers_find_replace. by rewrite E.
  - by apply headers_find_append.
Qed.

(** C10. The correlation id of a request is the value of its
    X-Correlation-ID header when there is one and it is not empty, and the
    new UUID otherwise.  [dispatch] stores it in [request.state], changes
    nothing else of the request, and hands the request to the next handler.
    A response of the handler comes back as a response, with its status and
    content and with the id as its X-Correlation-ID header; so every
    response has one.  An exception of the handler comes out as it is. *)
Theorem correlation_id_is_echoed
    (request : Request) (call_next : Request -> reply Response) (uuid4 : string) :
  let out := dispatch request call_next uuid4 in
  let given := headers_get (headers request) "X-Correlation-ID" in
  exists cid,
    (forall v, given = Some v -> v <> "" -> cid = v) /\
    (given = None \/ given = Some "" -> cid = uuid4) /\
    correlation_id (state (fst out)) = Some cid /\
    user_oid (state (fst out)) = user_oid (state request) /\
    client (fst out) = client request /\ method (fst out) = method request /\
    path (fst out) = path request /\ headers (fst out) = headers request /\
    (forall inner, call_next (fst out) = Done inner ->
       exists response,
         snd out = Done response /\
         headers_get (resp_headers response) "X-Correlation-ID" = Some cid /\
         status_code response = status_code inner /\
         content response = content inner) /\
    (forall response, snd out = Done response ->
       exists inner, call_next (fst out) = Done inner /\
         headers_get (resp_headers response) "X-Correlation-ID" = Some cid) /\
    (forall e, call_next (fst out) = Abort e -> snd out = Abort e) /\
    (forall e, call_next (fst out) = Crash e -> snd out = Crash e).
Proof.
  cbv zeta. unfold dispatch.
  set (cid := match headers_get (headers request) "X-Correlation-ID" with
              | Some v => if String.eqb v "" then uuid4 else v
              | None => uuid4
              end).
  exists cid.
  split.
  { intros v Hv Hne. subst cid. rewrite Hv. apply String.eqb_neq in Hne. by rewrite Hne. }
  split.
  { intros Hg. subst cid. by destruct Hg as [-> | ->]. }
  destruct (call_next (set_correlation_id request cid)) as [inner|e|e] eqn:Hnext;
    cbn [fst snd]; rewrite ?Hnext; cbn [set_correlation_id state correlation_id user_oid
                                         client method path headers];
    repeat split; try discriminate.
  - intros inner' [= <-]. eexists. split; [reflexivity|].
    cbn [set_response_header resp_headers status_code content].
    split; [apply headers_get_set|done].
  - intros response [= <-]. exists inner. split; [reflexivity|].
    cbn [set_response_header resp_headers]. apply headers_get_set.
  - by intros e' [= <-].
  - by intros e' [= <-].
Qed.

Definition traced_request : Request :=
  {| client := Some "203.0.113.7"; method := "GET"; path := "/v1/posts";
     headers := [("accept", "application/json"); ("x-correlation-id", "req-42")];
     state := {| correlation_id := None; user_oid := None |} |}.

Definition plain_response : Response :=
  {| status_code := 200; resp_headers := [("content-type", "application/json")];
     content := PList [] |}.

Lemma correlation_id_is_echoed_witness :
  headers_get (headers traced_request) "X-Correlation-ID" = Some "req-42" /\
  "req-42" <> "" /\
  let out := dispatch traced_request (fun _ => Done plain_response)
               "0b1e6a52-5c0f-4a8e-9d3b-2f7f9a1c4e10" in
  correlation_id (state (fst out)) = Some "req-42" /\
  exists response,
    snd out = Done response /\
    headers_get (resp_headers response) "X-Correlation-ID" = Some "req-42" /\
    status_code response = 200%Z.
Proof.
  assert (Hg : headers_get (headers traced_request) "X-Correlation-ID" = Some "req-42")
    by reflexivity.
  assert (Hne : "req-42" <> "") by discriminate.
  split; [exact Hg|]. split; [exact Hne|]. cbv zeta.
  destruct (correlation_id_is_echoed traced_request (fun _ => Done plain_response)
              "0b1e6a52-5c0f-4a8e-9d3b-2f7f9a1c4e10")
    as (cid & Hgiven & _ & Hstate & _ & _ & _ & _ & _ & Hdone & _).
  rewrite (Hgiven "req-42" Hg Hne) in Hstate, Hdone.
  split; [exact Hstate|].
  destruct (Hdone plain_response eq_refl) as (response & Hout & Hh & Hs & _).
  exists response. split; [exact Hout|]. split; [exact Hh|exact Hs].
Defined.

End CorrelationIdFacts.

Set Warnings "-clear-no-such-hyp".

(** * Further properties of the validator *)

Section AuthMore.
Import Auth.
Local Open Scope py_scope.

(** [token.rsplit(".", 1)] cuts at the last dot. *)
Lemma rsplit_dot_None_contains s : rsplit_dot s = None <-> contains "." s = false.
Proof.
  induction s as [|c s IH]; [done|].
  cbn [rsplit_dot contains String.prefix].
  destruct (rsplit_dot s) as [[m sg]|].
  - split; [done|]. intros H. apply orb_false_iff in H as [_ H].
    apply IH in H. discriminate.
  - assert (Hs : contains "." s = false) by by apply IH.
    rewrite Hs, orb_false_r.
    destruct (ascii_dec "."%char c) as [<-|Hne].
    + rewrite Ascii.eqb_refl. split; [discriminate|by destruct s].
    + destruct (Ascii.eqb_spec c "."%char) as [->|_]; [done|]. done.
Qed.

Lemma rsplit_dot_Some s message signature :
  rsplit_dot s = Some (message, signature) ->
  s = message +:+ "." +:+ signature /\ contains "." signature = false.
Proof.
  revert message. induction s as [|c s IH]; intros message; [done|].
  cbn [rsplit_dot]. destruct (rsplit_dot s) as [[m sg]|] eqn:E.
  - intros [= <- <-]. destruct (IH m eq_refl) as [-> Hsg]. done.
  - destruct (Ascii.eqb_spec c "."%char) as [->|_]; [|done].
    intros [= <- <-]. split; [done|]. by apply rsplit_dot_None_contains.
Qed.

(** [find_key] returns the first dictionary of the list whose ["kid"] is
    the one looked for. *)
Definition first_match (kid : pyval) (keys : list pyval) (key : pydict) : Prop :=
  exists before after,
    keys = (before ++ PDict key :: after)%list /\
    py_eq (dict_get_default key "kid" PNone) kid = true /\
    Forall (fun v => exists k, v = PDict k /\
                     py_eq (dict_get_default k "kid" PNone) kid = false) before.

Lemma find_key_Some keys kid key :
  find_key keys kid = Returned (Some key) -> first_match kid keys key.
Proof.
  induction keys as [|v keys IH]; [done|].
  destruct v as [| | | | |k]; try done. cbn [find_key].
  destruct (py_eq (dict_get_default k "kid" PNone) kid) eqn:E.
  - intros [= ->]. exists [], keys. by repeat split.
  - intros H. destruct (IH H) as (before & after & -> & Hk & Hb).
    exists (PDict k :: before), after. repeat split; [done|].
    constructor; [eauto|done].
Qed.

Lemma first_match_find_key keys kid key :
  first_match kid keys key -> find_key keys kid = Returned (Some key).
Proof.
  intros (before & after & -> & Hk & Hb).
  induction Hb as [|v before (k & -> & Hne) _ IH]; cbn [app find_key].
  - by rewrite Hk.
  - by rewrite Hne.
Qed.

(** What a key that [_get_signing_key] returns is. *)
Lemma get_signing_key_returns lib token jwks key :
  _get_signing_key lib token jwks = Returned key ->
  exists header d keys,
    get_unverified_header lib token = Returned header /\
    py_truthy (dict_get_default header "kid" PNone) = true /\
    jwks = PDict d /\
    dict_get_default d "keys" (PList []) = PList keys /\
    first_match (dict_get_default header "kid" PNone) keys key.
Proof.
  unfold _get_signing_key.
  destruct (get_unverified_header lib token) as [header|[]]; try done.
  destruct (py_truthy (dict_get_default header "kid" PNone)) eqn:Hkid; [|done].
  cbn [negb]. destruct jwks as [| | | | |d]; try done.
  destruct (dict_get_default d "keys" (PList [])) as [| | |s|keys|[|? ?]] eqn:Hkeys;
    try done.
  - by destruct (String.eqb s "").
  - destruct (find_key keys _) as [[k|]|] eqn:Hfind; try done.
    intros [= ->]. exists header, d, keys. repeat split; try done.
    by apply find_key_Some.
Qed.

(** The steps of [validate_token] up to the signature check, on the token
    [token] in the state [s]: the key set [jwks] is at hand in the state
    [s'], [key] is the signing key found in it, and the signature verifies. *)
Definition signature_verified (lib : Lib) (token : string)
    (s s' : JWTValidator * World) (key : pydict) : Prop :=
  exists jwks public_key message encoded_signature decoded_signature,
    _fetch_jwks lib s = (s', Returned jwks) /\
    _get_signing_key lib token jwks = Returned key /\
    construct lib (ensure_alg key) = Returned public_key /\
    rsplit_dot token = Some (message, encoded_signature) /\
    base64url_decode lib encoded_signature = Returned decoded_signature /\
    verify lib public_key message decoded_signature = Returned true.

Lemma validate_token_body_after_signature lib token s s' key :
  signature_verified lib token s s' key ->
  validate_token_body lib token s =
    match decode lib token (ensure_alg key) (api_app_id_uri (settings (fst s))) with
    | Raised e => (with_alg lib token s', Raised e)
    | Returned claims =>
        match check_issuer lib (settings (fst s)) claims with
        | Raised e => (with_alg lib token s', Raised e)
        | Returned _ =>
            match check_scope (settings (fst s)) claims with
            | Raised e => (with_alg lib token s', Raised e)
            | Returned _ => (with_alg lib token s', Returned claims)
            end
        end
    end.
Proof.
  intros (jwks & pk & message & sg & decoded & Hf & Hk & Hc & Hr & Hd & Hv).
  pose proof (fetch_jwks_settings lib s) as Hset. rewrite Hf in Hset. simpl in Hset.
  unfold validate_token_body, bind, lift, ret, raise, _set_alg.
  rewrite Hf, Hk, Hc, Hr, Hd, Hv. cbn [negb fst with_alg settings]. rewrite Hset.
  destruct (decode lib token (ensure_alg key) _) as [claims|?]; [|done].
  destruct (check_issuer lib _ claims) as [[]|?]; [|done].
  by destruct (check_scope _ claims) as [[]|?].
Qed.

Lemma validate_token_body_returns lib token s s' claims :
  validate_token_body lib token s = (s', Returned claims) ->
  exists key s1,
    signature_verified lib token s s1 key /\
    s' = with_alg lib token s1 /\
    decode lib token (ensure_alg key) (api_app_id_uri (settings (fst s))) = Returned claims /\
    check_issuer lib (settings (fst s)) claims = Returned () /\
    check_scope (settings (fst s)) claims = Returned ().
Proof.
  unfold validate_token_body, bind, lift, ret, raise, _set_alg.
  pose proof (fetch_jwks_settings lib s) as Hset.
  destruct (_fetch_jwks lib s) as [s2 [jwks|?]] eqn:Hf; [|discriminate]. simpl in Hset.
  destruct (_get_signing_key lib token jwks) as [key|?] eqn:Hk; [|discriminate].
  cbn [fst with_alg settings].
  destruct (construct lib (ensure_alg key)) as [pk|?] eqn:Hc; [|discriminate].
  destruct (rsplit_dot token) as [[message sg]|] eqn:Hr; [|discriminate].
  destruct (base64url_decode lib sg) as [decoded|?] eqn:Hd; [|discriminate].
  destruct (verify lib pk message decoded) as [[|]|?] eqn:Hv; simpl; try discriminate.
  destruct (decode lib token (ensure_alg key) _) as [claims1|?] eqn:Hdec; [|discriminate].
  destruct (check_issuer lib _ claims1) as [[]|?] eqn:Hiss; [|discriminate].
  destruct (check_scope _ claims1) as [[]|?] eqn:Hscope; [|discriminate].
  intros [= <- <-]. rewrite Hset in Hdec, Hiss, Hscope.
  exists key, s2. split; [|done]. by exists jwks, pk, message, sg, decoded.
Qed.

Lemma py_eq_str_r (v : pyval) (x : string) : py_eq v (PStr x) = true <-> v = PStr x.
Proof.
  destruct v; simpl; try (split; [discriminate|discriminate]).
  rewrite String.eqb_eq. split; [by intros ->|by intros [= ->]].
Qed.

(** X1. Claims that [validate_token] returns went through every step: the
    token header names a key id, the key set has under ["keys"] a first key
    with that id, the token splits at its last dot into a message and a
    signature that this key verifies, [jwt.decode] with the configured
    audience yields these claims, their issuer is one of the two accepted
    ones and the required scope is granted. *)
Theorem returned_claims_passed_every_check lib token s s' claims :
  validate_token lib token s = (s', Returned claims) ->
  exists header d keys key public_key message signature decoded,
    get_unverified_header lib token = Returned header /\
    py_truthy (dict_get_default header "kid" PNone) = true /\
    snd (_fetch_jwks lib s) = Returned (PDict d) /\
    dict_get_default d "keys" (PList []) = PList keys /\
    first_match (dict_get_default header "kid" PNone) keys key /\
    construct lib (ensure_alg key) = Returned public_key /\
    token = message +:+ "." +:+ signature /\
    contains "." signature = false /\
    base64url_decode lib signature = Returned decoded /\
    verify lib public_key message decoded = Returned true /\
    decode lib token (ensure_alg key) (api_app_id_uri (settings (fst s)))
      = Returned claims /\
    (exists issuer, issuer ∈ expected_issuers (settings (fst s)) /\
                    dict_get_default claims "iss" (PStr "") = PStr issuer) /\
    check_scope (settings (fst s)) claims = Returned ().
Proof.
  intros Hv.
  assert (Hbody : validate_token_body lib token s = (s', Returned claims)).
  { revert Hv. unfold validate_token, try_except.
    destruct (validate_token_body lib token s) as [s1 [c|e]]; [done|].
    destruct e; unfold raise; discriminate. }
  destruct (validate_token_body_returns _ _ _ _ _ Hbody)
    as (key & s1 & (jwks & pk & message & sg & decoded & Hf & Hk & Hc & Hr & Hd & Hver)
        & _ & Hdec & Hiss & Hscope).
  destruct (get_signing_key_returns _ _ _ _ Hk) as (header & d & keys & Hh & Hkid & -> & Hkeys & Hfirst).
  destruct (rsplit_dot_Some _ _ _ Hr) as [Htok Hnodot].
  exists header, d, keys, key, pk, message, sg, decoded.
  repeat split; try done.
  - by rewrite Hf.
  - by apply (validate_token_issuer_allowed lib token s s').
Qed.

Lemma returned_claims_passed_every_check_witness :
  exists s',
    validate_token (accepting_lib valid_claims) sample_token
      (new_validator sample_settings, new_process) = (s', Returned valid_claims) /\
    check_scope sample_settings valid_claims = Returned ().
Proof.
  eexists. split; [vm_compute; reflexivity|].
  destruct (returned_claims_passed_every_check (accepting_lib valid_claims) sample_token
              (new_validator sample_settings, new_process)
              ({| settings := sample_settings;
                  _jwks_cache := PDict [("keys", PList [PDict [("kid", PStr "key-1");
                                                               ("kty", PStr "RSA");
                                                               ("alg", PStr "RS256")]])] |},
               {| requests := 1 |})
              valid_claims)
    as (? & ? & ? & ? & ? & ? & ? & ? & H); [vm_compute; reflexivity|].
  apply H.
Defined.

(** X2. When the key set is at hand, the header's key is found in it and
    verifies the signature, [jwt.decode] accepts the token, the issuer is an
    accepted one and the scope is granted, [validate_token] returns the
    decoded claims; the validator is left with the key set as fetched, in
    which the key that was found has its ["alg"]. *)
Theorem verified_token_is_accepted lib token s s' key claims :
  signature_verified lib token s s' key ->
  decode lib token (ensure_alg key) (api_app_id_uri (settings (fst s))) = Returned claims ->
  check_issuer lib (settings (fst s)) claims = Returned () ->
  check_scope (settings (fst s)) claims = Returned () ->
  validate_token lib token s = (with_alg lib token s', Returned claims).
Proof.
  intros Hsig Hdec Hiss Hscope. unfold validate_token, try_except.
  rewrite (validate_token_body_after_signature _ _ _ _ _ Hsig), Hdec, Hiss, Hscope.
  reflexivity.
Qed.

Definition sample_key : pydict := [("kid", PStr "key-1"); ("kty", PStr "RSA")].

Definition sample_validator_with_keys : JWTValidator :=
  {| settings := sample_settings;
     _jwks_cache := PDict [("keys", PList [PDict sample_key])] |}.

(** The validator after a validation: the key has its ["alg"]. *)
Definition sample_validator_with_alg : JWTValidator :=
  {| settings := sample_settings;
     _jwks_cache := PDict [("keys", PList [PDict (sample_key ++ [("alg", PStr "RS256")])])] |}.

Lemma sample_signature_verified claims :
  signature_verified (accepting_lib claims) sample_token
    (new_validator sample_settings, new_process)
    (sample_validator_with_keys, {| requests := 1 |}) sample_key.
Proof.
  exists (PDict [("keys", PList [PDict sample_key])]), (), "header.payload", "signature",
         "signature".
  repeat split.
Qed.

Lemma verified_token_is_accepted_witness :
  signature_verified (accepting_lib valid_claims) sample_token
    (new_validator sample_settings, new_process)
    (sample_validator_with_keys, {| requests := 1 |}) sample_key /\
  validate_token (accepting_lib valid_claims) sample_token
    (new_validator sample_settings, new_process)
  = ((sample_validator_with_alg, {| requests := 1 |}), Returned valid_claims).
Proof.
  split; [apply sample_signature_verified|].
  apply (verified_token_is_accepted (accepting_lib valid_claims) sample_token
           (new_validator sample_settings, new_process)
           (sample_validator_with_keys, {| requests := 1 |}) sample_key valid_claims).
  - apply sample_signature_verified.
  - reflexivity.
  - vm_compute. reflexivity.
  - vm_compute. reflexivity.
Defined.

(** X3. A rejection by [jwt.decode] itself (expired token, wrong audience:
    a [JWTError]) keeps the library's message as the reason of the
    [TokenValidationError]; the validator is left as after an accepted
    token. *)
Theorem jose_rejection_reason_is_kept lib token s s' key msg :
  signature_verified lib token s s' key ->
  decode lib token (ensure_alg key) (api_app_id_uri (settings (fst s)))
    = Raised (JWTError msg) ->
  validate_token lib token s = (with_alg lib token s', Raised (TokenValidationError msg)).
Proof.
  intros Hsig Hdec. unfold validate_token, try_except.
  rewrite (validate_token_body_after_signature _ _ _ _ _ Hsig), Hdec. reflexivity.
Qed.

(** The libraries of [accepting_lib], with a [jwt.decode] that finds the
    token expired. *)
Definition expiring_lib : Lib :=
  {| PublicKey := unit;
     http_get_json := http_get_json (accepting_lib []);
     get_unverified_header := get_unverified_header (accepting_lib []);
     construct := fun _ => Returned ();
     base64url_decode := fun s => Returned s;
     verify := fun _ _ _ => Returned true;
     decode := fun _ _ _ => Raised (JWTError "Signature has expired.");
     repr := fun _ => "[...]" |}.

Lemma jose_rejection_reason_is_kept_witness :
  validate_token expiring_lib sample_token (new_validator sample_settings, new_process)
  = ((sample_validator_with_alg, {| requests := 1 |}),
     Raised (TokenValidationError "Signature has expired.")).
Proof.
  apply (jose_rejection_reason_is_kept expiring_lib sample_token
           (new_validator sample_settings, new_process)
           (sample_validator_with_keys, {| requests := 1 |}) sample_key).
  - exists (PDict [("keys", PList [PDict sample_key])]), (), "header.payload", "signature",
           "signature".
    repeat split.
  - reflexivity.
Defined.

(** X4. [get_current_user] never lets an exception other than an
    [HTTPException] out: it returns the claims [validate_token] returned, or
    aborts with status 401 and a [WWW-Authenticate] header that starts with
    "Bearer".  Without credentials no request is sent. *)
Theorem get_current_user_rejects_with_401 lib credentials settings w :
  match snd (get_current_user lib credentials settings w) with
  | Done claims =>
      exists token s', credentials = Some token /\
        validate_token lib token (new_validator settings, w) = (s', Returned claims)
  | Abort e =>
      exc_status_code e = 401%Z /\
      exists v, exc_headers e = [("WWW-Authenticate", v)] /\ String.prefix "Bearer" v = true
  | Crash _ => False
  end /\
  fst (get_current_user lib None settings w) = w.
Proof.
  split; [|reflexivity].
  unfold get_current_user. destruct credentials as [token|]; simpl.
  - destruct (validate_token lib token (new_validator settings, w))
      as [[v w'] [claims|e]] eqn:Hv.
    + simpl. eauto.
    + destruct (validate_token_raises _ _ _ _ _ Hv) as [reason ->]. simpl.
      split; [done|]. eauto.
  - split; [done|]. eauto.
Qed.

(** Several tokens validated by one validator, one after the other. *)
Fixpoint validate_all (lib : Lib) (tokens : list string) (s : JWTValidator * World)
  : (JWTValidator * World) * list (outcome pydict) :=
  match tokens with
  | [] => (s, [])
  | token :: tokens' =>
      let step := validate_token lib token s in
      let rest := validate_all lib tokens' (fst step) in
      (fst rest, snd step :: snd rest)
  end.

Lemma fetch_jwks_caches lib s s' jwks :
  _fetch_jwks lib s = (s', Returned jwks) ->
  _jwks_cache (fst s') = jwks /\ (requests (snd s') <= S (requests (snd s)))%nat.
Proof.
  destruct s as [self w]. unfold _fetch_jwks.
  destruct (py_truthy (_jwks_cache self)).
  - intros [= <- <-]. simpl. split; [done|lia].
  - destruct (http_get_json lib _ _) as [j|[]]; intros [= <- <-]. simpl. split; [done|lia].
Qed.

(** The write of ["alg"] leaves a key set a key set. *)
Lemma jwks_with_alg_truthy lib token jwks :
  py_truthy jwks = true -> py_truthy (jwks_with_alg lib token jwks) = true.
Proof.
  intros H. unfold jwks_with_alg.
  destruct (get_unverified_header lib token) as [header|e]; [|done].
  destruct jwks as [| | | | |d]; try done.
  destruct (dict_get d "keys") as [[| | | |keys|]|]; try done.
  destruct d as [|[k v] d]; [done|]. cbn [dict_set]. by destruct (String.eqb k "keys").
Qed.

(** A validator that holds a key set sends no request and keeps a key
    set. *)
Lemma validate_token_cached lib token self w :
  py_truthy (_jwks_cache self) = true ->
  let s' := fst (validate_token lib token (self, w)) in
  snd s' = w /\ settings (fst s') = settings self /\
  py_truthy (_jwks_cache (fst s')) = true.
Proof.
  intros Hc. cbv zeta. rewrite validate_token_state, fetch_jwks_cached by done.
  destruct (_get_signing_key lib token (_jwks_cache self)); cbn; [|done].
  repeat split. by apply jwks_with_alg_truthy.
Qed.

Lemma validate_all_cached lib tokens : forall s,
  py_truthy (_jwks_cache (fst s)) = true ->
  let s' := fst (validate_all lib tokens s) in
  snd s' = snd s /\ settings (fst s') = settings (fst s) /\
  py_truthy (_jwks_cache (fst s')) = true.
Proof.
  induction tokens as [|token tokens IH]; intros [self w] Hc; [done|].
  cbn [validate_all]. cbv zeta. cbn [fst snd].
  destruct (validate_token_cached lib token self w Hc) as (Hw & Hs & Ht).
  destruct (IH _ Ht) as (IHw & IHs & IHt). cbv zeta in IHw, IHs, IHt.
  repeat split; [congruence|congruence|done].
Qed.

(** X5. A validator that has validated one token holds the key set: at most
    one request was sent for it, and every further validation by this
    validator, of any tokens, sends none, keeps the settings and keeps a
    key set in the cache. *)
Theorem kept_validator_fetches_once lib token s s' claims :
  validate_token lib token s = (s', Returned claims) ->
  (requests (snd s') <= S (requests (snd s)))%nat /\
  forall tokens,
    let s'' := fst (validate_all lib tokens s') in
    requests (snd s'') = requests (snd s') /\
    settings (fst s'') = settings (fst s') /\
    py_truthy (_jwks_cache (fst s'')) = true.
Proof.
  intros Hv.
  assert (Hbody : validate_token_body lib token s = (s', Returned claims)).
  { revert Hv. unfold validate_token, try_except.
    destruct (validate_token_body lib token s) as [s1 [c|e]]; [done|].
    destruct e; unfold raise; discriminate. }
  destruct (validate_token_body_returns _ _ _ _ _ Hbody)
    as (key & s1 & (jwks & pk & message & sg & decoded & Hf & Hk & _) & -> & _).
  destruct (fetch_jwks_caches _ _ _ _ Hf) as [Hcache Hreq].
  split; [exact Hreq|]. intros tokens.
  assert (Ht : py_truthy (_jwks_cache (fst (with_alg lib token s1))) = true).
  { cbn [with_alg fst _jwks_cache]. apply jwks_with_alg_truthy. rewrite Hcache.
    destruct (get_signing_key_returns _ _ _ _ Hk)
      as (header & d & keys & _ & _ & -> & Hkeys & (before & after & -> & _)).
    destruct d as [|kv d]; [|done].
    unfold dict_get_default in Hkeys. simpl in Hkeys. by destruct before. }
  destruct (validate_all_cached lib tokens _ Ht) as (Hw & Hs & Hc).
  cbv zeta in *. repeat split; [by rewrite Hw|exact Hs|exact Hc].
Qed.

Lemma kept_validator_fetches_once_witness :
  let s' := (sample_validator_with_alg, {| requests := 1 |}) in
  validate_token (accepting_lib valid_claims) sample_token
    (new_validator sample_settings, new_process) = (s', Returned valid_claims) /\
  requests (snd (fst (validate_all (accepting_lib valid_claims)
                        [sample_token; sample_token] s'))) = 1%nat.
Proof.
  assert (Hv : validate_token (accepting_lib valid_claims) sample_token
                 (new_validator sample_settings, new_process)
               = ((sample_validator_with_alg, {| requests := 1 |}), Returned valid_claims))
    by (vm_compute; reflexivity).
  split; [exact Hv|].
  exact (proj1 (proj2 (kept_validator_fetches_once _ _ _ _ _ Hv)
                  [sample_token; sample_token])).
Defined.

(** X6. The issuer check accepts exactly two issuers, by equality of
    strings: the one [Settings.token_issuer] gives for the tenant and the
    legacy sts.windows.net one. *)
Theorem issuer_check_accepts_two_issuers lib settings claims :
  check_issuer lib settings claims = Returned () <->
  dict_get_default claims "iss" (PStr "") = PStr (token_issuer settings) \/
  dict_get_default claims "iss" (PStr "")
    = PStr ("https://sts.windows.net/" +:+ tenant_id settings +:+ "/").
Proof.
  unfold check_issuer, expected_issuers, token_issuer. cbn [existsb].
  rewrite orb_false_r.
  destruct (py_eq _ (PStr ("https://login.microsoftonline.com/" +:+ _))) eqn:E1;
    cbn [orb negb].
  - apply py_eq_str_r in E1. split; [by left|done].
  - destruct (py_eq _ (PStr ("https://sts.windows.net/" +:+ _))) eqn:E2; cbn [negb].
    + apply py_eq_str_r in E2. split; [by right|done].
    + split; [done|]. intros [H|H]; apply py_eq_str_r in H; congruence.
Qed.

Lemma issuer_check_accepts_two_issuers_witness :
  dict_get_default valid_claims "iss" (PStr "")
    = PStr ("https://sts.windows.net/" +:+ tenant_id sample_settings +:+ "/") /\
  check_issuer (accepting_lib valid_claims) sample_settings valid_claims = Returned ().
Proof.
  assert (H : dict_get_default valid_claims "iss" (PStr "")
              = PStr ("https://sts.windows.net/" +:+ tenant_id sample_settings +:+ "/"))
    by reflexivity.
  split; [exact H|].
  apply (proj2 (issuer_check_accepts_two_issuers (accepting_lib valid_claims)
                  sample_settings valid_claims)).
  right. exact H.
Defined.

End AuthMore.

(** * Further properties of the rate limiter *)

Section HeaderFacts.

Lemma headers_find_filter_ne hs k k' :
  k <> k' ->
  headers_find (filter (fun kv : string * string => negb (String.eqb (fst kv) k)) hs) k'
  = headers_find hs k'.
Proof.
  intros Hne. induction hs as [|[k0 v] hs IH]; [done|].
  rewrite filter_cons. cbn [fst headers_find].
  destruct (String.eqb_spec k0 k) as [->|Hk0].
  - rewrite decide_False by (cbn; exact id).
    apply String.eqb_neq in Hne. by rewrite Hne.
  - rewrite decide_True by (cbn; exact I).
    cbn [headers_find]. by rewrite IH.
Qed.

Lemma headers_find_replace_ne hs k value k' :
  k <> k' -> headers_find (headers_replace hs k value) k' = headers_find hs k'.
Proof.
  intros Hne. induction hs as [|[k0 v] hs IH]; [done|].
  cbn [headers_replace]. destruct (String.eqb_spec k0 k) as [->|Hk0]; cbn [headers_find].
  - rewrite (proj2 (String.eqb_neq k k') Hne). by apply headers_find_filter_ne.
  - by rewrite IH.
Qed.

Lemma headers_find_append_ne hs k value k' :
  k <> k' -> headers_find (hs ++ [(k, value)]) k' = headers_find hs k'.
Proof.
  intros Hne. induction hs as [|[k0 v] hs IH]; simpl.
  - apply String.eqb_neq in Hne. by rewrite Hne.
  - by rewrite IH.
Qed.

(** Setting a header leaves the headers of other names as they read. *)
Lemma headers_get_set_ne hs key value key' :
  lower key <> lower key' ->
  headers_get (headers_set hs key value) key' = headers_get hs key'.
Proof.
  intros Hne. unfold headers_get, headers_set.
  destruct (headers_find hs (lower key)).
  - by apply headers_find_replace_ne.
  - by apply headers_find_append_ne.
Qed.

End HeaderFacts.

Section RateLimitMore.
Import RateLimit.
Local Open Scope Q_scope.

(** The clock readings of a sequence of calls never go back: each call
    reads the clock for a new bucket, then for the refill, and the next call
    reads it later still. *)
Fixpoint clock_monotone (t0 : Q) (calls : list (Request * Q * Q)) : Prop :=
  match calls with
  | [] => True
  | (_, t_new, t_now) :: calls' =>
      t0 <= t_new /\ t_new <= t_now /\ clock_monotone t_now calls'
  end.

(** Every bucket holds between 0 and [rate] tokens and was last updated at
    [t0] or before. *)
Definition settled (lim : RateLimiter) (t0 : Q) : Prop :=
  forall k b, buckets lim !! k = Some b ->
    0 <= tokens b /\ tokens b <= inject_Z (rate lim) /\ last_update b <= t0.

Lemma current_bucket_settled lim request t0 t_new :
  (0 < rate lim)%Z -> settled lim t0 -> t0 <= t_new ->
  let b := current_bucket lim request t_new in
  0 <= tokens b /\ tokens b <= inject_Z (rate lim) /\ last_update b <= t_new.
Proof.
  intros Hr Hs Ht. unfold current_bucket.
  destruct (buckets lim !! _get_client_id request) as [b|] eqn:E; simpl.
  - destruct (Hs _ _ E) as (H1 & H2 & H3). repeat split; [done|done|lra].
  - assert (0 < inject_Z (rate lim)) by (rewrite <- (Zlt_Qlt 0); lia).
    repeat split; lra.
Qed.

Lemma refilled_tokens_range lim b now :
  (0 < rate lim)%Z -> (0 < per lim)%Z ->
  0 <= tokens b -> last_update b <= now ->
  0 <= refilled_tokens lim b now /\ refilled_tokens lim b now <= inject_Z (rate lim).
Proof.
  intros Hr Hp Hb Hl. split; [|apply py_min_le_l].
  assert (Hr' : 0 < inject_Z (rate lim)) by (rewrite <- (Zlt_Qlt 0); lia).
  assert (Hp' : 0 < inject_Z (per lim)) by (rewrite <- (Zlt_Qlt 0); lia).
  assert (Hadd : 0 <= (now - last_update b) / inject_Z (per lim) * inject_Z (rate lim)).
  { apply Qmult_le_0_compat; [|lra].
    apply Qle_shift_div_l; [exact Hp'|]. lra. }
  unfold refilled_tokens, py_min. destruct (Qlt_bool _ _); lra.
Qed.

Lemma is_allowed_settled lim request t0 t_new t_now :
  (0 < rate lim)%Z -> (0 < per lim)%Z ->
  settled lim t0 -> t0 <= t_new -> t_new <= t_now ->
  settled (fst (is_allowed lim request t_new t_now)) t_now.
Proof.
  intros Hr Hp Hs H0 H1.
  destruct (current_bucket_settled lim request t0 t_new Hr Hs H0) as (Hb0 & Hb1 & Hb2).
  destruct (refilled_tokens_range lim (current_bucket lim request t_new) t_now Hr Hp Hb0)
    as [Hx0 Hx1]; [lra|].
  rewrite is_allowed_returns by lia. cbn [fst]. intros k b.
  cbn [buckets set_buckets rate]. rewrite lookup_insert. case_decide.
  - intros [= <-]. cbn [tokens last_update].
    destruct (Qle_bool 1 _) eqn:E.
    + apply Qle_bool_iff in E. repeat split; lra.
    + repeat split; lra.
  - intros Hk. destruct (Hs _ _ Hk) as (? & ? & ?). repeat split; [done|done|lra].
Qed.

Lemma run_calls_settled calls : forall lim t0,
  (0 < rate lim)%Z -> (0 < per lim)%Z ->
  settled lim t0 -> clock_monotone t0 calls ->
  exists t1, settled (fst (run_calls lim calls)) t1 /\ t0 <= t1 /\
    forall request t_new t_now,
      clock_monotone t0 (calls ++ [(request, t_new, t_now)]) -> t1 <= t_new.
Proof.
  induction calls as [|[[request t_new] t_now] calls IH]; intros lim t0 Hr Hp Hs Hm.
  - exists t0. split; [done|]. split; [lra|]. intros ? ? ? (H & _). exact H.
  - destruct Hm as (H0 & H1 & Hm). rewrite run_calls_cons. cbv zeta. cbn [fst].
    pose proof (is_allowed_settled lim request t0 t_new t_now Hr Hp Hs H0 H1) as Hs'.
    pose proof (is_allowed_rate lim request t_new t_now) as [Hr' Hp'].
    destruct (IH (fst (is_allowed lim request t_new t_now)) t_now) as (t1 & Ht1 & Hle & Hnext);
      [lia|lia|done|done|].
    exists t1. split; [done|]. split; [lra|].
    intros rq a c (_ & _ & Hm'). by apply (Hnext rq a c).
Qed.

(** X7. With a positive capacity and window and a clock that does not go
    back, no bucket ever holds a negative number of tokens. *)
Theorem tokens_never_negative (r p : Z) (t0 : Q) (calls : list (Request * Q * Q)) :
  (0 < r)%Z -> (0 < p)%Z -> clock_monotone t0 calls ->
  forall k b, buckets (fst (run_calls (new_limiter r p) calls)) !! k = Some b ->
    0 <= tokens b.
Proof.
  intros Hr Hp Hm k b Hk.
  assert (Hs0 : settled (new_limiter r p) t0).
  { intros k' b'. cbn. by rewrite lookup_empty. }
  destruct (run_calls_settled calls (new_limiter r p) t0 Hr Hp Hs0 Hm) as (t1 & Hs & _).
  by destruct (Hs k b Hk).
Qed.

Lemma tokens_never_negative_witness :
  let calls := [(sample_request, 0, 0); (sample_request, 1, 1); (sample_request, 1, 3)] in
  (0 < 2)%Z /\ (0 < 60)%Z /\ clock_monotone 0 calls /\
  exists b, buckets (fst (run_calls (new_limiter 2 60) calls)) !! "203.0.113.7" = Some b /\
            0 <= tokens b.
Proof.
  cbv zeta.
  assert (Hm : clock_monotone 0
            [(sample_request, 0, 0); (sample_request, 1, 1); (sample_request, 1, 3)]).
  { cbn. repeat split; lra. }
  split; [lia|]. split; [lia|]. split; [exact Hm|].
  eexists. split; [vm_compute; reflexivity|].
  apply (tokens_never_negative 2 60 0 _ ltac:(lia) ltac:(lia) Hm "203.0.113.7").
  vm_compute. reflexivity.
Defined.

(** X8. With a capacity and a window between 1 and 2^53 and a clock that
    does not go back, every call returns, and what it reports is in range:
    [limit] is the capacity, [remaining] is between 0 and capacity - 1, and
    a denial reports no remaining token and a [retry_after] between 0 and
    [per / rate] seconds (a deficit of at most 1, times the quotient, cut
    to whole seconds). *)
Theorem rate_info_is_in_range (r p : Z) (t0 : Q) (calls : list (Request * Q * Q))
    (request : Request) (t_new t_now : Q) :
  (0 < r <= 2 ^ 53)%Z -> (0 < p <= 2 ^ 53)%Z ->
  clock_monotone t0 (calls ++ [(request, t_new, t_now)]) ->
  exists lim' allowed info,
    is_allowed (fst (run_calls (new_limiter r p) calls)) request t_new t_now
      = (lim', Returned (allowed, info)) /\
    limit info = r /\
    (0 <= remaining info < r)%Z /\
    (allowed = true -> retry_after info = 0%Z) /\
    (allowed = false ->
       remaining info = 0%Z /\ (0 <= retry_after info)%Z /\
       inject_Z (retry_after info) <= inject_Z p / inject_Z r).
Proof.
  intros [Hr _] [Hp _] Hm.
  assert (Hpre : clock_monotone t0 calls /\ t_new <= t_now).
  { clear -Hm. revert t0 Hm. induction calls as [|[[rq a] c] calls IH]; intros t0 Hm.
    - destruct Hm as (_ & H & _). done.
    - destruct Hm as (H0 & H1 & Hm). destruct (IH _ Hm) as [IH1 IH2]. by repeat split. }
  destruct Hpre as [Hmc Hnn].
  assert (Hs0 : settled (new_limiter r p) t0).
  { intros k' b'. cbn. by rewrite lookup_empty. }
  destruct (run_calls_settled calls (new_limiter r p) t0 Hr Hp Hs0 Hmc)
    as (t1 & Hs & _ & Hnext).
  specialize (Hnext _ _ _ Hm).
  set (lim := fst (run_calls (new_limiter r p) calls)) in *.
  assert (Hnew : bounded (new_limiter r p)).
  { intros k' b'. cbn. by rewrite lookup_empty. }
  destruct (run_calls_bounded calls _ Hnew) as (_ & Hrate & Hper).
  fold lim in Hrate, Hper. cbn in Hrate, Hper.
  assert (Hr' : (0 < rate lim)%Z) by lia. assert (Hp' : (0 < per lim)%Z) by lia.
  destruct (current_bucket_settled lim request t1 t_new Hr' Hs Hnext) as (Hb0 & Hb1 & Hb2).
  destruct (refilled_tokens_range lim (current_bucket lim request t_new) t_now Hr' Hp' Hb0)
    as [Hx0 Hx1]; [lra|].
  rewrite is_allowed_returns by lia.
  set (x := refilled_tokens lim (current_bucket lim request t_new) t_now) in *.
  assert (Hx1' : x <= inject_Z r) by (rewrite <- Hrate; exact Hx1).
  do 3 eexists. split; [reflexivity|].
  cbn [limit remaining retry_after tokens]. rewrite Hrate, Hper.
  assert (Hrq : 0 < inject_Z r) by (rewrite <- (Zlt_Qlt 0); lia).
  assert (Hpq : 0 < inject_Z p) by (rewrite <- (Zlt_Qlt 0); lia).
  assert (Hq : 0 <= inject_Z p / inject_Z r).
  { apply Qle_shift_div_l; [exact Hrq|]. lra. }
  split; [reflexivity|].
  destruct (Qle_bool 1 x) eqn:E.
  - apply Qle_bool_iff in E. split; [|split; [done|discriminate]].
    split; [apply py_int_nonneg; lra|].
    assert (py_int (x - 1) <= r - 1)%Z; [|lia].
    apply py_int_le; [lra|]. replace (r - 1)%Z with (r + -1)%Z by lia.
    rewrite inject_Z_plus. change (inject_Z (-1)) with (-1 # 1).
    lra.
  - apply not_true_iff_false in E. rewrite Qle_bool_iff in E.
    assert (Hx : py_int x = 0%Z) by (apply py_int_small; lra).
    rewrite Hx. split; [lia|]. split; [discriminate|]. intros _.
    split; [reflexivity|].
    assert (Hw : 0 <= (1 - x) * (inject_Z p / inject_Z r)).
    { apply Qmult_le_0_compat; [lra|exact Hq]. }
    split; [by apply py_int_nonneg|].
    destruct (py_int_floor _ Hw) as [Hle _].
    assert ((1 - x) * (inject_Z p / inject_Z r) <= 1 * (inject_Z p / inject_Z r)).
    { apply Qmult_le_compat_r; [lra|exact Hq]. }
    lra.
Qed.

Lemma rate_info_is_in_range_witness :
  (0 < 10 <= 2 ^ 53)%Z /\ (0 < 60 <= 2 ^ 53)%Z /\
  clock_monotone 0 ([(sample_request, 0, 0)] ++ [(sample_request, 1, 2)]) /\
  exists lim' allowed info,
    is_allowed (fst (run_calls (new_limiter 10 60) [(sample_request, 0, 0)]))
      sample_request 1 2 = (lim', Returned (allowed, info)) /\
    limit info = 10%Z /\ (0 <= remaining info < 10)%Z.
Proof.
  assert (Hm : clock_monotone 0 ([(sample_request, 0, 0)] ++ [(sample_request, 1, 2)])).
  { cbn. repeat split; lra. }
  split; [lia|]. split; [lia|]. split; [exact Hm|].
  destruct (rate_info_is_in_range 10 60 0 [(sample_request, 0, 0)] sample_request 1 2
              ltac:(lia) ltac:(lia) Hm)
    as (lim' & allowed & info & Hcall & Hlim & Hrem & _).
  exists lim', allowed, info. repeat split; [exact Hcall|exact Hlim|apply Hrem|apply Hrem].
Defined.

End RateLimitMore.

Section MiddlewareMore.
Import RateLimit.
Local Open Scope Q_scope.

Lemma limiter_type_cases request :
  _get_limiter_type request = "auth" \/ _get_limiter_type request = "write" \/
  _get_limiter_type request = "read" \/ _get_limiter_type request = "default".
Proof.
  unfold _get_limiter_type.
  destruct (_ || _ || _); [by left|].
  destruct (bool_decide _); [by right; left|].
  destruct (String.eqb _ _); [by right; right; left|by right; right; right].
Qed.

(** The limiters of [mw] are those of [mw0], with the same capacity and
    window. *)
Definition same_config (mw0 mw : RateLimitMiddleware) : Prop :=
  forall ty l0, limiters mw0 !! ty = Some l0 ->
    exists l, limiters mw !! ty = Some l /\ rate l = rate l0 /\ per l = per l0.

Lemma dispatch_same_config mw0 mw request call_next t_new t_now :
  same_config mw0 mw -> same_config mw0 (fst (dispatch mw request call_next t_new t_now)).
Proof.
  intros Hc. unfold dispatch.
  destruct (bool_decide _); [done|].
  destruct (limiters mw !! _get_limiter_type request) as [lim|] eqn:E; [|done].
  pose proof (is_allowed_rate lim request t_new t_now) as [Hr Hp].
  destruct (is_allowed lim request t_new t_now) as [lim' res]. simpl in Hr, Hp.
  assert (Hmw : same_config mw0
                  {| limiters := <[_get_limiter_type request := lim']> (limiters mw) |}).
  { intros ty l0 Hty. cbn. rewrite lookup_insert. case_decide as Heq.
    - subst ty. destruct (Hc _ _ Hty) as (l & Hl & ? & ?).
      rewrite E in Hl. injection Hl as ->. exists lim'. split; [done|]. split; congruence.
    - by apply Hc. }
  destruct res as [[[|] info]|e]; cbn [negb]; [|done|done].
  by destruct (call_next request).
Qed.

Lemma run_dispatch_same_config mw0 call_next calls : forall mw,
  same_config mw0 mw -> same_config mw0 (fst (run_dispatch mw call_next calls)).
Proof.
  induction calls as [|[[request t_new] t_now] calls IH]; intros mw Hc; [done|].
  cbn [run_dispatch]. cbv zeta. cbn [fst]. apply IH. by apply dispatch_same_config.
Qed.

(** X9. Whatever requests went through the middleware, it holds a limiter
    for the class of every request, with the capacity and the window it was
    built with: the lookup [self.limiters[limiter_type]] cannot fail. *)
Theorem limiters_stay_configured (default_rate default_per : Z)
    (call_next : Request -> reply Response) (calls : list (Request * Q * Q))
    (request : Request) :
  let mw0 := new_middleware default_rate default_per in
  let mw := fst (run_dispatch mw0 call_next calls) in
  exists l0 l,
    limiters mw0 !! _get_limiter_type request = Some l0 /\
    limiters mw !! _get_limiter_type request = Some l /\
    rate l = rate l0 /\ per l = per l0.
Proof.
  cbv zeta.
  assert (H0 : exists l0, limiters (new_middleware default_rate default_per)
                            !! _get_limiter_type request = Some l0).
  { destruct (limiter_type_cases request) as [-> | [-> | [-> | ->]]]; by eexists. }
  destruct H0 as [l0 H0].
  destruct (run_dispatch_same_config (new_middleware default_rate default_per) call_next
              calls (new_middleware default_rate default_per)) with
    (ty := _get_limiter_type request) (l0 := l0) as (l & Hl & Hr & Hp); [|done|].
  { intros ty l1 H1. by exists l1. }
  by exists l0, l.
Qed.

(** The response of the next handler with the three rate-limit headers. *)
Definition with_rate_limit_headers (response : Response) (rate_info : RateInfo) : Response :=
  set_response_header
    (set_response_header
       (set_response_header response "X-RateLimit-Limit" (pretty (limit rate_info)))
       "X-RateLimit-Remaining" (pretty (remaining rate_info)))
    "X-RateLimit-Reset" (pretty (reset rate_info)).

(** X10. A middleware built with a default capacity and window between 1
    and 2^53, by a clock that does not go back, never fails by itself: what
    [dispatch] hands back is the reply of the next handler, that reply with
    the rate-limit headers, or the 429 rejection. *)
Theorem dispatch_never_fails_by_itself (default_rate default_per : Z)
    (call_next : Request -> reply Response) (t0 : Q) (calls : list (Request * Q * Q))
    (request : Request) (t_new t_now : Q) :
  (0 < default_rate <= 2 ^ 53)%Z -> (0 < default_per <= 2 ^ 53)%Z ->
  clock_monotone t0 (calls ++ [(request, t_new, t_now)]) ->
  let mw := fst (run_dispatch (new_middleware default_rate default_per) call_next calls) in
  let out := snd (dispatch mw request call_next t_new t_now) in
  out = call_next request \/
  (exists rate_info, out = Abort (rate_limit_exceeded rate_info)) \/
  (exists response rate_info,
     call_next request = Done response /\
     out = Done (with_rate_limit_headers response rate_info)).
Proof.
  intros [Hr _] [Hp _] _. cbv zeta.
  assert (H0 : exists l0, limiters (new_middleware default_rate default_per)
                            !! _get_limiter_type request = Some l0 /\
                          rate l0 <> 0%Z /\ per l0 <> 0%Z).
  { destruct (limiter_type_cases request) as [-> | [-> | [-> | ->]]];
      eexists; (split; [reflexivity|]); cbn; lia. }
  destruct H0 as (l0 & H0 & Hr0 & Hp0).
  destruct (run_dispatch_same_config (new_middleware default_rate default_per) call_next
              calls (new_middleware default_rate default_per)) with
    (ty := _get_limiter_type request) (l0 := l0) as (l & Hl & Hrate & Hper); [|done|].
  { intros ty l1 H1. by exists l1. }
  assert (Hnr : rate l <> 0%Z) by congruence.
  assert (Hnp : per l <> 0%Z) by congruence.
  unfold dispatch. destruct (bool_decide _); [by left|].
  rewrite Hl. rewrite (is_allowed_returns l request t_new t_now Hnp Hnr).
  destruct (Qle_bool 1 _); cbn [negb snd].
  - destruct (call_next request) as [response| |] eqn:E; cbn [snd].
    + right. right. by eexists _, _.
    + by left.
    + by left.
  - right. left. by eexists.
Qed.

Definition crashing_handler (request : Request) : reply Response :=
  Crash (PyError "RuntimeError" "database is locked").

Lemma dispatch_never_fails_by_itself_witness :
  (0 < 1000 <= 2 ^ 53)%Z /\ (0 < 60 <= 2 ^ 53)%Z /\
  clock_monotone 0 ([(sample_request, 0, 0)] ++ [(sample_request, 0, 1)]) /\
  let mw := fst (run_dispatch (new_middleware 1000 60) crashing_handler
                   [(sample_request, 0, 0)]) in
  snd (dispatch mw sample_request crashing_handler 0 1) = crashing_handler sample_request.
Proof.
  assert (Hm : clock_monotone 0 ([(sample_request, 0, 0)] ++ [(sample_request, 0, 1)])).
  { cbn. repeat split; lra. }
  split; [lia|]. split; [lia|]. split; [exact Hm|]. cbv zeta.
  destruct (dispatch_never_fails_by_itself 1000 60 crashing_handler 0
              [(sample_request, 0, 0)] sample_request 0 1 ltac:(lia) ltac:(lia) Hm)
    as [H | [[info H] | (response & info & H & _)]].
  - exact H.
  - vm_compute in H. discriminate H.
  - discriminate H.
Defined.

(** X11. A request changes the limiter of its own class only: the buckets of
    the other classes are as they were. *)
Theorem dispatch_other_classes_untouched (mw : RateLimitMiddleware) (request : Request)
    (call_next : Request -> reply Response) (t_new t_now : Q) (ty : string) :
  ty <> _get_limiter_type request ->
  limiters (fst (dispatch mw request call_next t_new t_now)) !! ty = limiters mw !! ty.
Proof.
  intros Hne. unfold dispatch.
  destruct (bool_decide _); [done|].
  destruct (limiters mw !! _get_limiter_type request) as [lim|]; [|done].
  destruct (is_allowed lim request t_new t_now) as [lim' [[[|] info]|e]]; cbn [negb].
  - destruct (call_next request); cbn; by rewrite lookup_insert_ne.
  - cbn. by rewrite lookup_insert_ne.
  - cbn. by rewrite lookup_insert_ne.
Qed.

Lemma dispatch_other_classes_untouched_witness :
  "write" <> _get_limiter_type sample_request /\
  limiters (fst (dispatch (new_middleware 100 60) sample_request
                   (fun _ => Done ok_response) 0 0)) !! "write"
  = limiters (new_middleware 100 60) !! "write".
Proof.
  assert (Hne : "write" <> _get_limiter_type sample_request) by (vm_compute; discriminate).
  split; [exact Hne|].
  exact (dispatch_other_classes_untouched (new_middleware 100 60) sample_request
           (fun _ => Done ok_response) 0 0 "write" Hne).
Defined.

(** X12. The default capacity that main.py takes from the environment (100
    in production, 1000 otherwise) is the limit of those requests only
    whose path has none of "login", "callback", "token" and whose method is
    none of POST, PUT, PATCH, DELETE, GET; for every other request the
    limiter is the same in all environments. *)
Theorem environment_sets_default_class_only (request : Request) :
  (_get_limiter_type request = "default" <->
   contains "login" (path request) = false /\
   contains "callback" (path request) = false /\
   contains "token" (path request) = false /\
   method request ∉ ["POST"; "PUT"; "PATCH"; "DELETE"; "GET"]) /\
  (forall settings1 settings2,
     _get_limiter_type request <> "default" ->
     limiters (Main.rate_limit_middleware settings1) !! _get_limiter_type request
     = limiters (Main.rate_limit_middleware settings2) !! _get_limiter_type request) /\
  (forall settings,
     limiters (Main.rate_limit_middleware settings) !! "default"
     = Some (new_limiter (if is_production settings then 100 else 1000) 60)).
Proof.
  split; [|split].
  - unfold _get_limiter_type.
    destruct (contains "login" (path request)); cbn [orb].
    { split; [discriminate|]. by intros (? & _). }
    destruct (contains "callback" (path request)); cbn [orb].
    { split; [discriminate|]. by intros (_ & ? & _). }
    destruct (contains "token" (path request)); cbn [orb].
    { split; [discriminate|]. by intros (_ & _ & ? & _). }
    destruct (bool_decide _) eqn:E1.
    { apply bool_decide_eq_true_1 in E1. split; [discriminate|].
      intros (_ & _ & _ & H). exfalso. apply H. set_solver. }
    apply bool_decide_eq_false_1 in E1.
    destruct (String.eqb_spec (method request) "GET") as [E2|E2].
    { split; [discriminate|]. intros (_ & _ & _ & H). exfalso. apply H.
      rewrite E2. set_solver. }
    split; [|done]. intros _. repeat split. set_solver.
  - intros settings1 settings2 Hne. unfold Main.rate_limit_middleware.
    destruct (limiter_type_cases request) as [Hty | [Hty | [Hty | Hty]]];
      [| | |done]; rewrite Hty;
      by destruct (environment settings1), (environment settings2).
  - intros settings. unfold Main.rate_limit_middleware, is_production.
    by destruct (environment settings).
Qed.

Lemma environment_sets_default_class_only_witness :
  _get_limiter_type sample_request <> "default" /\
  limiters (Main.rate_limit_middleware (with_environment production))
    !! _get_limiter_type sample_request
  = limiters (Main.rate_limit_middleware (with_environment development))
    !! _get_limiter_type sample_request.
Proof.
  assert (H : _get_limiter_type sample_request <> "default") by (vm_compute; discriminate).
  split; [exact H|].
  exact (proj1 (proj2 (environment_sets_default_class_only sample_request))
           (with_environment production) (with_environment development) H).
Defined.

Lemma is_allowed_limit lim request t_new t_now lim' allowed info :
  is_allowed lim request t_new t_now = (lim', Returned (allowed, info)) ->
  limit info = rate lim.
Proof.
  unfold is_allowed, _refill_tokens.
  destruct (per lim =? 0)%Z; [done|]. cbn.
  destruct (rate lim =? 0)%Z; [done|]. by intros [= _ _ <-].
Qed.

(** X13. A response that comes back through [dispatch] for a path other
    than the health checks is the response of the next handler, with its
    status and content, and with the headers X-RateLimit-Limit (the
    capacity of the class), X-RateLimit-Remaining and X-RateLimit-Reset set
    from the admitted call; headers of other names read as the handler set
    them. *)
Theorem forwarded_response_has_rate_limit_headers (mw : RateLimitMiddleware)
    (request : Request) (call_next : Request -> reply Response) (t_new t_now : Q)
    (response' : Response) :
  path request ∉ health_paths ->
  snd (dispatch mw request call_next t_new t_now) = Done response' ->
  exists lim lim' rate_info response,
    limiters mw !! _get_limiter_type request = Some lim /\
    is_allowed lim request t_new t_now = (lim', Returned (true, rate_info)) /\
    call_next request = Done response /\
    status_code response' = status_code response /\
    content response' = content response /\
    headers_get (resp_headers response') "X-RateLimit-Limit" = Some (pretty (rate lim)) /\
    headers_get (resp_headers response') "X-RateLimit-Remaining"
      = Some (pretty (remaining rate_info)) /\
    headers_get (resp_headers response') "X-RateLimit-Reset"
      = Some (pretty (reset rate_info)) /\
    forall key,
      lower key ∉ ["x-ratelimit-limit"; "x-ratelimit-remaining"; "x-ratelimit-reset"] ->
      headers_get (resp_headers response') key = headers_get (resp_headers response) key.
Proof.
  intros Hpath. unfold dispatch. rewrite bool_decide_eq_false_2 by done.
  destruct (limiters mw !! _get_limiter_type request) as [lim|]; [|done].
  destruct (is_allowed lim request t_new t_now) as [lim' [[[|] info]|e]] eqn:Hcall;
    cbn [negb]; [|done|done].
  destruct (call_next request) as [response| |] eqn:Hnext; [|done|done].
  cbn [snd]. intros [= <-].
  exists lim, lim', info, response. repeat split; try done.
  - cbn [resp_headers set_response_header].
    rewrite !headers_get_set_ne by (vm_compute; discriminate).
    rewrite headers_get_set. by rewrite (is_allowed_limit _ _ _ _ _ _ _ Hcall).
  - cbn [resp_headers set_response_header].
    rewrite headers_get_set_ne by (vm_compute; discriminate).
    apply headers_get_set.
  - cbn [resp_headers set_response_header]. apply headers_get_set.
  - intros key Hkey. cbn [resp_headers set_response_header].
    rewrite !headers_get_set_ne; [done| | |]; intros E; apply Hkey; rewrite <- E;
      vm_compute; set_solver.
Qed.

Lemma forwarded_response_has_rate_limit_headers_witness :
  (path sample_request ∉ health_paths) /\
  exists response',
    snd (dispatch (new_middleware 100 60) sample_request (fun _ => Done ok_response) 0 0)
      = Done response' /\
    headers_get (resp_headers response') "X-RateLimit-Limit" = Some "100".
Proof.
  assert (Hp : path sample_request ∉ health_paths).
  { apply (bool_decide_unpack _). vm_compute. exact I. }
  split; [exact Hp|]. eexists. split; [vm_compute; reflexivity|].
  destruct (forwarded_response_has_rate_limit_headers (new_middleware 100 60) sample_request
              (fun _ => Done ok_response) 0 0 _ Hp ltac:(vm_compute; reflexivity))
    as (lim & lim' & info & response & Hlim & _ & _ & _ & _ & Hh & _).
  vm_compute in Hlim. injection Hlim as <-. exact Hh.
Defined.

(** X14. A request for a client whose bucket is empty, with no time gone
    by since its last update, in a class of capacity and window between 1
    and 2^53: the call denies it, and [dispatch] rejects it with status
    429, X-RateLimit-Limit the capacity, X-RateLimit-Remaining "0",
    X-RateLimit-Reset as the call reports it and a Retry-After of
    [per ÷ rate] seconds, the whole part of the time one token takes; the
    next handler is not asked. *)
Theorem empty_bucket_is_rejected (mw : RateLimitMiddleware) (request : Request)
    (call_next : Request -> reply Response) (t_new t : Q) (lim : RateLimiter) :
  path request ∉ health_paths ->
  limiters mw !! _get_limiter_type request = Some lim ->
  (0 < rate lim <= 2 ^ 53)%Z -> (0 < per lim <= 2 ^ 53)%Z ->
  tokens (current_bucket lim request t_new) == 0 ->
  last_update (current_bucket lim request t_new) == t ->
  exists e lim' rate_info,
    is_allowed lim request t_new t = (lim', Returned (false, rate_info)) /\
    snd (dispatch mw request call_next t_new t) = Abort e /\
    exc_status_code e = 429%Z /\
    exc_headers e = [("X-RateLimit-Limit", pretty (rate lim));
                     ("X-RateLimit-Remaining", "0");
                     ("X-RateLimit-Reset", pretty (reset rate_info));
                     ("Retry-After", pretty (per lim ÷ rate lim)%Z)].
Proof.
  intros Hpath Hlim [Hr _] [Hp _] Htok Hlast. unfold dispatch.
  rewrite bool_decide_eq_false_2 by done. rewrite Hlim.
  rewrite is_allowed_returns by lia.
  assert (Hx : refilled_tokens lim (current_bucket lim request t_new) t == 0).
  { rewrite refill_zero_elapsed; [exact Htok|lia|exact Hlast|].
    rewrite Htok, <- (Zle_Qle 0). lia. }
  assert (Hden : Qle_bool 1 (refilled_tokens lim (current_bucket lim request t_new) t)
                 = false).
  { apply not_true_iff_false. rewrite Qle_bool_iff, Hx. lra. }
  rewrite Hden. cbn [negb snd]. do 3 eexists. split; [reflexivity|].
  split; [reflexivity|]. split; [reflexivity|].
  unfold rate_limit_exceeded. cbn [exc_headers limit reset retry_after].
  repeat f_equal.
  rewrite <- (py_int_quot _ _ Hr). apply py_int_Qeq. rewrite Hx. ring.
Qed.

Definition login_request : Request :=
  {| client := Some "203.0.113.7"; method := "POST"; path := "/v1/login"; headers := [];
     state := {| correlation_id := None; user_oid := None |} |}.

(** Ten logins at one instant use the ten tokens of the class; the
    eleventh is rejected. *)
Lemma empty_bucket_is_rejected_witness :
  let mw := fst (run_dispatch (new_middleware 100 60) (fun _ => Done ok_response)
                   (repeat (login_request, 0, 0) 10)) in
  exists e,
    snd (dispatch mw login_request (fun _ => Done ok_response) 0 0) = Abort e /\
    exc_status_code e = 429%Z /\
    exc_headers e = [("X-RateLimit-Limit", "10"); ("X-RateLimit-Remaining", "0");
                     ("X-RateLimit-Reset", "60"); ("Retry-After", "6")].
Proof.
  cbv zeta.
  pose (lim := default (new_limiter 0 0)
                 (limiters (fst (run_dispatch (new_middleware 100 60)
                                   (fun _ => Done ok_response)
                                   (repeat (login_request, 0, 0) 10))) !! "auth")).
  destruct (empty_bucket_is_rejected
              (fst (run_dispatch (new_middleware 100 60) (fun _ => Done ok_response)
                      (repeat (login_request, 0, 0) 10)))
              login_request (fun _ => Done ok_response) 0 0 lim)
    as (e & lim' & info & Hcall & He & Hs & Hh).
  - apply (bool_decide_unpack _). vm_compute. exact I.
  - vm_compute. reflexivity.
  - vm_compute. split; [reflexivity|discriminate].
  - vm_compute. split; [reflexivity|discriminate].
  - vm_compute. reflexivity.
  - vm_compute. reflexivity.
  - exists e. split; [exact He|]. split; [exact Hs|]. rewrite Hh.
    vm_compute in Hcall. injection Hcall as _ <-. vm_compute. reflexivity.
Defined.

End MiddlewareMore.

(** * middleware.py: the other middlewares, and the stack of main.py *)

(** [SecurityHeadersMiddleware] *)
Module SecurityHeaders.

Definition dispatch (request : Request) (call_next : Request -> reply Response)
  : reply Response :=
  match call_next request with
  | Done response =>
      let response := set_response_header response "X-Content-Type-Options" "nosniff" in
      let response := set_response_header response "X-Frame-Options" "DENY" in
      let response := set_response_header response "X-XSS-Protection" "1; mode=block" in
      let response := set_response_header response "Strict-Transport-Security"
                        "max-age=31536000; includeSubDomains" in
      let response := set_response_header response "Content-Security-Policy"
                        "default-src 'self'" in
      let response := set_response_header response "Referrer-Policy"
                        "strict-origin-when-cross-origin" in
      let response := set_response_header response "Permissions-Policy"
                        "geolocation=(), microphone=(), camera=()" in
      Done response
  | failure => failure
  end.

End SecurityHeaders.

(** [RequestLoggingMiddleware].  What it writes to the logger is not part
    of the model; what it does to the response and to an exception is.
    [start_time] and [end_time] are the two readings of [time.time()] and
    [float_str] is [str] on a float. *)
Module RequestLogging.

Definition dispatch (request : Request) (call_next : Request -> reply Response)
    (start_time end_time : Q) (float_str : Q -> string) : reply Response :=
  match call_next request with
  | Done response =>
      let process_time := (end_time - start_time)%Q in
      Done (set_response_header response "X-Process-Time" (float_str process_time))
  | failure => failure
  end.

End RequestLogging.

(** main.py, lines 76-86: the middlewares are added in the order security
    headers, logging, correlation id, rate limit, and the one added last
    runs first.  [app] is what lies below them (CORS, the routes and their
    exception handlers). *)
Module Stack.

Record Clock := {
  t_new : Q;          (* read when a bucket is created *)
  t_now : Q;          (* read by the refill *)
  start_time : Q;     (* read when logging starts *)
  end_time : Q        (* read when the response is back *)
}.

Definition handle (mw : RateLimit.RateLimitMiddleware) (app : Request -> reply Response)
    (request : Request) (uuid4 : string) (clock : Clock) (float_str : Q -> string)
  : RateLimit.RateLimitMiddleware * reply Response :=
  RateLimit.dispatch mw request
    (fun request =>
       snd (CorrelationId.dispatch request
              (fun request =>
                 RequestLogging.dispatch request
                   (fun request => SecurityHeaders.dispatch request app)
                   (start_time clock) (end_time clock) float_str)
              uuid4))
    (t_new clock) (t_now clock).

End Stack.

Section StackFacts.

(** The id [CorrelationIdMiddleware] settles on. *)
Definition chosen_correlation_id (request : Request) (uuid4 : string) : string :=
  match headers_get (headers request) "X-Correlation-ID" with
  | Some v => if String.eqb v "" then uuid4 else v
  | None => uuid4
  end.

(** X15. A response of [SecurityHeadersMiddleware] is the response of the
    next handler with the seven security headers set to their fixed values,
    whatever the handler had put there; status, content and the headers of
    other names are the handler's. *)
Theorem security_headers_are_set (request : Request)
    (call_next : Request -> reply Response) (response' : Response) :
  SecurityHeaders.dispatch request call_next = Done response' ->
  exists response,
    call_next request = Done response /\
    status_code response' = status_code response /\
    content response' = content response /\
    headers_get (resp_headers response') "X-Content-Type-Options" = Some "nosniff" /\
    headers_get (resp_headers response') "X-Frame-Options" = Some "DENY" /\
    headers_get (resp_headers response') "X-XSS-Protection" = Some "1; mode=block" /\
    headers_get (resp_headers response') "Strict-Transport-Security"
      = Some "max-age=31536000; includeSubDomains" /\
    headers_get (resp_headers response') "Content-Security-Policy"
      = Some "default-src 'self'" /\
    headers_get (resp_headers response') "Referrer-Policy"
      = Some "strict-origin-when-cross-origin" /\
    headers_get (resp_headers response') "Permissions-Policy"
      = Some "geolocation=(), microphone=(), camera=()" /\
    forall key,
      lower key ∉ ["x-content-type-options"; "x-frame-options"; "x-xss-protection";
                   "strict-transport-security"; "content-security-policy";
                   "referrer-policy"; "permissions-policy"] ->
      headers_get (resp_headers response') key = headers_get (resp_headers response) key.
Proof.
  unfold SecurityHeaders.dispatch.
  destruct (call_next request) as [response| |]; [|done|done].
  cbv zeta. intros [= <-]. exists response.
  cbn [status_code content resp_headers set_response_header].
  repeat split.
  all: try (rewrite ?headers_get_set_ne by (vm_compute; discriminate);
            apply headers_get_set).
  intros key Hkey.
  rewrite !headers_get_set_ne; [done|..]; intros E; apply Hkey; rewrite <- E;
    vm_compute; set_solver.
Qed.

Definition framing_response : Response :=
  {| status_code := 200;
     resp_headers := [("content-type", "text/html"); ("x-frame-options", "SAMEORIGIN")];
     content := PStr "<html></html>" |}.

Lemma security_headers_are_set_witness :
  exists response',
    SecurityHeaders.dispatch sample_request (fun _ => Done framing_response)
      = Done response' /\
    headers_get (resp_headers response') "X-Frame-Options" = Some "DENY" /\
    headers_get (resp_headers response') "Content-Type" = Some "text/html".
Proof.
  eexists. split; [vm_compute; reflexivity|].
  destruct (security_headers_are_set sample_request (fun _ => Done framing_response) _
              ltac:(vm_compute; reflexivity))
    as (response & Hr & _ & _ & _ & Hframe & _ & _ & _ & _ & _ & Hother).
  injection Hr as <-. split; [exact Hframe|].
  rewrite Hother; [reflexivity|]. vm_compute.
  intros H. repeat (apply elem_of_cons in H as [H|H]; [discriminate H|]).
  by apply elem_of_nil in H.
Defined.

(** The seven headers of [SecurityHeadersMiddleware]. *)
Definition security_headers : list (string * string) :=
  [("X-Content-Type-Options", "nosniff");
   ("X-Frame-Options", "DENY");
   ("X-XSS-Protection", "1; mode=block");
   ("Strict-Transport-Security", "max-age=31536000; includeSubDomains");
   ("Content-Security-Policy", "default-src 'self'");
   ("Referrer-Policy", "strict-origin-when-cross-origin");
   ("Permissions-Policy", "geolocation=(), microphone=(), camera=()")].

(** X16. A response that comes out of the stack of main.py is the response
    the application gave to the request carrying the correlation id in its
    state, with that id in X-Correlation-ID, the processing time in
    X-Process-Time, the seven security headers and, for a path other than
    the health checks, the capacity of the request's class in
    X-RateLimit-Limit. *)
Theorem stack_response_headers (mw : RateLimit.RateLimitMiddleware)
    (app : Request -> reply Response) (request : Request) (uuid4 : string)
    (clock : Stack.Clock) (float_str : Q -> string) (response' : Response) :
  snd (Stack.handle mw app request uuid4 clock float_str) = Done response' ->
  let cid := chosen_correlation_id request uuid4 in
  exists response,
    app (CorrelationId.set_correlation_id request cid) = Done response /\
    status_code response' = status_code response /\
    content response' = content response /\
    headers_get (resp_headers response') "X-Correlation-ID" = Some cid /\
    headers_get (resp_headers response') "X-Process-Time"
      = Some (float_str (Stack.end_time clock - Stack.start_time clock)%Q) /\
    Forall (fun kv => headers_get (resp_headers response') (fst kv) = Some (snd kv))
           security_headers /\
    (path request ∉ RateLimit.health_paths ->
     exists lim, RateLimit.limiters mw !! RateLimit._get_limiter_type request = Some lim /\
       headers_get (resp_headers response') "X-RateLimit-Limit"
         = Some (pretty (RateLimit.rate lim))).
Proof.
  intros Hout cid.
  set (inner := fun request0 : Request =>
         snd (CorrelationId.dispatch request0
                (fun request1 =>
                   RequestLogging.dispatch request1
                     (fun request2 => SecurityHeaders.dispatch request2 app)
                     (Stack.start_time clock) (Stack.end_time clock) float_str)
                uuid4)).
  assert (Hinner : forall r1, inner request = Done r1 ->
    exists response,
      app (CorrelationId.set_correlation_id request cid) = Done response /\
      status_code r1 = status_code response /\
      content r1 = content response /\
      headers_get (resp_headers r1) "X-Correlation-ID" = Some cid /\
      headers_get (resp_headers r1) "X-Process-Time"
        = Some (float_str (Stack.end_time clock - Stack.start_time clock)%Q) /\
      Forall (fun kv => headers_get (resp_headers r1) (fst kv) = Some (snd kv))
             security_headers).
  { intros r1. unfold inner, CorrelationId.dispatch, RequestLogging.dispatch,
      SecurityHeaders.dispatch. fold (chosen_correlation_id request uuid4). fold cid.
    destruct (app (CorrelationId.set_correlation_id request cid)) as [response| |];
      [|done|done].
    cbv zeta. cbn [snd]. intros [= <-]. exists response.
    cbn [status_code content resp_headers set_response_header].
    split; [done|]. split; [done|]. split; [done|].
    split; [apply headers_get_set|].
    split.
    { rewrite ?headers_get_set_ne by (vm_compute; discriminate). apply headers_get_set. }
    unfold security_headers. repeat constructor; cbn [fst snd];
      rewrite ?headers_get_set_ne by (vm_compute; discriminate); apply headers_get_set. }
  revert Hout. unfold Stack.handle. fold inner. unfold RateLimit.dispatch.
  destruct (bool_decide (path request ∈ RateLimit.health_paths)) eqn:Hhealth.
  - cbn [snd]. intros Hr1. destruct (Hinner _ Hr1) as (response & H).
    exists response. apply bool_decide_eq_true_1 in Hhealth.
    destruct H as (? & ? & ? & ? & ? & ?). by repeat split.
  - destruct (RateLimit.limiters mw !! RateLimit._get_limiter_type request)
      as [lim|] eqn:Hlim; [|done].
    destruct (RateLimit.is_allowed lim request _ _) as [lim' [[[|] info]|e]] eqn:Hcall;
      cbn [negb]; [|done|done].
    destruct (inner request) as [r1| |] eqn:Hr1; [|done|done].
    cbn [snd]. intros [= <-].
    destruct (Hinner _ eq_refl) as (response & Happ & Hst & Hco & Hcid & Htime & Hsec).
    exists response. cbn [status_code content resp_headers set_response_header].
    split; [done|]. split; [done|]. split; [done|].
    split; [by rewrite !headers_get_set_ne by (vm_compute; discriminate)|].
    split; [by rewrite !headers_get_set_ne by (vm_compute; discriminate)|].
    split.
    + revert Hsec. unfold security_headers. rewrite !Forall_cons. cbn [fst snd].
      intros (H1 & H2 & H3 & H4 & H5 & H6 & H7 & _).
      repeat split; try done;
        by rewrite !headers_get_set_ne by (vm_compute; discriminate).
    + intros _. exists lim. split; [done|].
      rewrite !headers_get_set_ne by (vm_compute; discriminate).
      rewrite headers_get_set. by rewrite (is_allowed_limit _ _ _ _ _ _ _ Hcall).
Qed.

Definition sample_clock : Stack.Clock :=
  {| Stack.t_new := 0; Stack.t_now := 0; Stack.start_time := 0; Stack.end_time := 1 # 4 |}.

Lemma stack_response_headers_witness :
  exists response',
    snd (Stack.handle (RateLimit.new_middleware 100 60) (fun _ => Done framing_response)
           traced_request "0b1e6a52-5c0f-4a8e-9d3b-2f7f9a1c4e10" sample_clock
           (fun _ => "0.25")) = Done response' /\
    headers_get (resp_headers response') "X-Correlation-ID" = Some "req-42" /\
    headers_get (resp_headers response') "X-Process-Time" = Some "0.25".
Proof.
  eexists. split; [vm_compute; reflexivity|].
  destruct (stack_response_headers (RateLimit.new_middleware 100 60)
              (fun _ => Done framing_response) traced_request
              "0b1e6a52-5c0f-4a8e-9d3b-2f7f9a1c4e10" sample_clock (fun _ => "0.25") _
              ltac:(vm_compute; reflexivity))
    as (response & _ & _ & _ & Hcid & Htime & _).
  split; [exact Hcid|exact Htime].
Defined.

End StackFacts.

(** * health.py *)

Module Health.

(** [s.split(sep)] for a separator of one character: the pieces between
    the separators, at least one. *)
Fixpoint split_on (sep : ascii) (s : string) : list string :=
  match s with
  | EmptyString => [EmptyString]
  | String c s' =>
      if Ascii.eqb c sep then EmptyString :: split_on sep s'
      else match split_on sep s' with
           | piece :: pieces => String c piece :: pieces
           | [] => [String c EmptyString]
           end
  end.

(** [database_url.split("@")[-1]] *)
Definition hide_credentials (database_url : string) : string :=
  List.last (split_on "@"%char database_url) EmptyString.

(** The dictionary a check returns, by its keys. *)
Record Check := {
  status : string;
  message : string;
  database_url : option string;
  endpoint : option string;
  response_time_ms : option Q
}.

(** [check_database]: [session] is [None] without a session, and otherwise
    what [session.exec(text("SELECT 1"))] does. *)
Definition check_database (url : string) (session : option (outcome unit)) : Check :=
  match session with
  | Some (Returned _) =>
      {| status := "healthy"; message := "Database is accessible";
         database_url := Some (hide_credentials url);
         endpoint := None; response_time_ms := None |}
  | Some (Raised e) =>
      {| status := "unhealthy"; message := "Database error: " +:+ exn_str e;
         database_url := None; endpoint := None; response_time_ms := None |}
  | None =>
      {| status := "unknown"; message := "Database session not available";
         database_url := None; endpoint := None; response_time_ms := None |}
  end.

(** [check_jwks_endpoint]: [get] is what the GET of the JWKS endpoint and
    [raise_for_status] do, with the seconds the response took. *)
Definition check_jwks_endpoint (settings : Settings) (get : outcome Q) : Check :=
  match get with
  | Returned elapsed =>
      {| status := "healthy"; message := "JWKS endpoint is accessible";
         database_url := None;
         endpoint := Some (jwks_endpoint settings);
         response_time_ms := Some (elapsed * 1000)%Q |}
  | Raised e =>
      {| status := "unhealthy"; message := "JWKS endpoint error: " +:+ exn_str e;
         database_url := None;
         endpoint := Some (jwks_endpoint settings);
         response_time_ms := None |}
  end.

(** The overall status of [get_full_status], from the two checks. *)
Definition overall_status (checks : list Check) : string :=
  if existsb (fun check => String.eqb (status check) "unhealthy") checks then "unhealthy"
  else if existsb (fun check => String.eqb (status check) "unknown") checks then "degraded"
  else "healthy".

Record HealthStatus := {
  hs_status : string;
  hs_timestamp : Q;
  hs_version : string;
  hs_environment : Environment;
  hs_database : Check;
  hs_jwks : Check
}.

(** [get_full_status]; [now] is [datetime.now(timezone.utc)] and [version]
    is [settings.api_version]. *)
Definition get_full_status (settings : Settings) (version url : string)
    (session : option (outcome unit)) (get : outcome Q) (now : Q) : HealthStatus :=
  let database := check_database url session in
  let jwks := check_jwks_endpoint settings get in
  {| hs_status := overall_status [database; jwks];
     hs_timestamp := now;
     hs_version := version;
     hs_environment := environment settings;
     hs_database := database;
     hs_jwks := jwks |}.

(** [readiness] *)
Definition readiness (url : string) (session : option (outcome unit)) : pydict :=
  let db_status := check_database url session in
  if String.eqb (status db_status) "healthy" then [("status", PStr "ready")]
  else [("status", PStr "not ready"); ("reason", PStr "database unavailable")].

End Health.

Section HealthFacts.
Import Health.

Lemma contains_at_cons c s :
  contains "@" (String c s) = false <-> c <> "@"%char /\ contains "@" s = false.
Proof.
  cbn [contains String.prefix].
  destruct (ascii_dec "@"%char c) as [<-|Hne].
  - replace (String.prefix "" s) with true by (by destruct s). cbn [orb].
    split; [discriminate|]. by intros [? _].
  - cbn [orb]. split; [intros H; split; [congruence|done]|by intros [_ ?]].
Qed.

(** The pieces, each after an "@". *)
Fixpoint at_joined (pieces : list string) : string :=
  match pieces with
  | [] => ""
  | p :: pieces' => "@" +:+ p +:+ at_joined pieces'
  end.

(** The pieces of [split_on] have no separator, and joined by it they are
    the string. *)
Lemma split_on_at s :
  exists piece pieces,
    split_on "@"%char s = piece :: pieces /\
    Forall (fun p => contains "@" p = false) (piece :: pieces) /\
    s = piece +:+ at_joined pieces.
Proof.
  induction s as [|c s (piece & pieces & IH & Hno & Hs)].
  - exists "", []. repeat split. by repeat constructor.
  - cbn [split_on]. destruct (Ascii.eqb_spec c "@"%char) as [->|Hne].
    + exists "", (piece :: pieces). split; [by rewrite IH|]. split.
      * constructor; [done|exact Hno].
      * rewrite Hs at 1. reflexivity.
    + rewrite IH. exists (String c piece), pieces. split; [done|]. split.
      * apply Forall_cons in Hno as [Hp Hps]. constructor; [|exact Hps].
        by apply contains_at_cons.
      * rewrite Hs at 1. reflexivity.
Qed.

Lemma append_assoc (a b c : string) : (a +:+ b) +:+ c = a +:+ (b +:+ c).
Proof.
  induction a as [|x a IH]; [done|].
  change (String x ((a +:+ b) +:+ c) = String x (a +:+ (b +:+ c))). by rewrite IH.
Qed.

Lemma append_empty_r (a : string) : a +:+ "" = a.
Proof.
  induction a as [|x a IH]; [done|].
  change (String x (a +:+ "") = String x a). by rewrite IH.
Qed.

Lemma at_joined_last pieces d :
  pieces <> [] ->
  exists front, at_joined pieces = front +:+ "@" +:+ List.last pieces d.
Proof.
  induction pieces as [|p pieces IH]; [done|]. intros _.
  destruct pieces as [|q pieces].
  - exists "". change (at_joined [p]) with ("@" +:+ p +:+ "").
    by rewrite append_empty_r.
  - destruct IH as [front Hf]; [done|].
    exists ("@" +:+ p +:+ front).
    change (List.last (p :: q :: pieces) d) with (List.last (q :: pieces) d).
    change (at_joined (p :: q :: pieces)) with ("@" +:+ p +:+ at_joined (q :: pieces)).
    rewrite Hf. by rewrite !append_assoc.
Qed.

(** X17. The database URL that a healthy database check reports has no
    "@" in it: it is the part of the configured URL after its last "@" (the
    whole URL when it has none), so what stands before, user and password,
    is left out. *)
Theorem database_url_is_shown_without_credentials (url : string) :
  let shown := hide_credentials url in
  database_url (check_database url (Some (Returned ()))) = Some shown /\
  contains "@" shown = false /\
  (url = shown \/ exists front, url = front +:+ "@" +:+ shown).
Proof.
  cbv zeta. split; [reflexivity|]. unfold hide_credentials.
  destruct (split_on_at url) as (piece & pieces & -> & Hno & Hurl).
  destruct pieces as [|q pieces].
  - cbn. apply Forall_cons in Hno as [Hp _]. split; [done|]. left.
    rewrite Hurl. change (at_joined []) with "". by rewrite append_empty_r.
  - change (List.last (piece :: q :: pieces) "") with (List.last (q :: pieces) "").
    split.
    + apply Forall_cons in Hno as [_ Hps].
      assert (Hin : In (List.last (q :: pieces) "") (q :: pieces)).
      { clear. revert q. induction pieces as [|r pieces IH]; intros q; [by left|].
        right. apply IH. }
      rewrite Forall_forall in Hps. apply Hps. by apply list_elem_of_In.
    + right. destruct (at_joined_last (q :: pieces) "") as [front Hf]; [done|].
      exists (piece +:+ front). rewrite Hurl, Hf. by rewrite !append_assoc.
Qed.

(** X18. The overall status of the detailed health check is "unhealthy"
    exactly when the database query or the JWKS request failed, "degraded"
    exactly when neither failed and there is no database session, and
    "healthy" exactly when both succeeded. *)
Theorem overall_status_cases (settings : Settings) (version url : string)
    (session : option (outcome unit)) (get : outcome Q) (now : Q) :
  let overall := hs_status (get_full_status settings version url session get now) in
  (overall = "unhealthy" <->
   (exists e, session = Some (Raised e)) \/ (exists e, get = Raised e)) /\
  (overall = "degraded" <-> session = None /\ exists elapsed, get = Returned elapsed) /\
  (overall = "healthy" <->
   (exists u, session = Some (Returned u)) /\ exists elapsed, get = Returned elapsed).
Proof.
  cbv zeta. unfold get_full_status, overall_status. cbn [hs_status].
  destruct session as [[[]|e]|], get as [elapsed|e']; cbn; naive_solver.
Qed.

Lemma overall_status_cases_witness :
  hs_status (get_full_status sample_settings "v1" "sqlite:///./blog_api.db" None
               (Returned (1 # 10)) 0) = "degraded".
Proof.
  apply (proj2 (proj1 (proj2 (overall_status_cases sample_settings "v1"
           "sqlite:///./blog_api.db" None (Returned (1 # 10)) 0)))).
  split; [reflexivity|]. by eexists.
Defined.

End HealthFacts.

(** * repositories.py, services.py and the post routes

    The two tables are finite maps from the primary key to the row; a
    [datetime] is a number.  The key and the clock readings that the
    database and [datetime.utcnow] give to a new row are arguments.  A key
    is an integer of the database (SQLite: 64 bits, signed); a lookup by a
    [post_id] beyond that range, for which the driver raises
    [OverflowError], is outside the model, and the properties of the routes
    below are stated for ids within it. *)

Module Blog.

Record User := {
  u_id : Z;
  u_oid : string;
  u_display_name : option string;
  u_created_at : Z;
  u_updated_at : Z
}.

Record BlogPost := {
  p_id : Z;
  p_title : string;
  p_content : string;
  p_author_id : Z;
  p_created_at : Z;
  p_updated_at : Z
}.

Record Session := {
  users : gmap Z User;
  posts : gmap Z BlogPost
}.

(** What the database gives a new row. *)
Record NewRow := {
  new_id : Z;
  created_at : Z;
  updated_at : Z
}.

(** [ResourceNotFoundError(resource, identifier)] and
    [AuthorizationError(message)] of exceptions.py, and the error of the
    database for a second user with the same [oid] ([unique=True]). *)
Inductive error :=
| ResourceNotFoundError (resource : string) (identifier : Z)
| AuthorizationError (message : string)
| IntegrityError.

Inductive result (A : Type) :=
| Ok (a : A)
| Err (e : error).
Arguments Ok {A} a.
Arguments Err {A} e.

(** [e.message] *)
Definition error_message (e : error) : string :=
  match e with
  | ResourceNotFoundError resource identifier =>
      resource +:+ " with identifier '" +:+ pretty identifier +:+ "' not found"
  | AuthorizationError message => message
  | IntegrityError => "UNIQUE constraint failed: users.oid"
  end.

(** [UserRepository] *)
Definition user_get_by_id (s : Session) (user_id : Z) : option User := users s !! user_id.

(** [select(User).where(User.oid == oid)] then [first()] *)
Definition user_get_by_oid (s : Session) (oid : string) : option User :=
  head (filter (fun u => u_oid u = oid) (snd <$> map_to_list (users s))).

Definition user_create (s : Session) (oid : string) (display_name : option string)
    (row : NewRow) : Session * result User :=
  match user_get_by_oid s oid with
  | Some _ => (s, Err IntegrityError)
  | None =>
      let user := {| u_id := new_id row; u_oid := oid; u_display_name := display_name;
                     u_created_at := created_at row; u_updated_at := updated_at row |} in
      ({| users := <[new_id row := user]> (users s); posts := posts s |}, Ok user)
  end.

Definition user_get_or_create (s : Session) (oid : string) (display_name : option string)
    (row : NewRow) : Session * result (User * bool) :=
  match user_get_by_oid s oid with
  | Some existing_user => (s, Ok (existing_user, false))
  | None =>
      match user_create s oid display_name row with
      | (s', Ok new_user) => (s', Ok (new_user, true))
      | (s', Err e) => (s', Err e)
      end
  end.

(** [BlogPostRepository].  [session.get(BlogPost, post_id)], for a
    [post_id] within the integers of the database. *)
Definition post_get_by_id (s : Session) (post_id : Z) : option BlogPost := posts s !! post_id.

Definition post_get_by_id_or_raise (s : Session) (post_id : Z) : result BlogPost :=
  match post_get_by_id s post_id with
  | Some post => Ok post
  | None => Err (ResourceNotFoundError "BlogPost" post_id)
  end.

Definition post_create (s : Session) (title content : string) (author_id : Z)
    (row : NewRow) : Session * BlogPost :=
  let post := {| p_id := new_id row; p_title := title; p_content := content;
                 p_author_id := author_id;
                 p_created_at := created_at row; p_updated_at := updated_at row |} in
  ({| users := users s; posts := <[new_id row := post]> (posts s) |}, post).

Definition post_update (s : Session) (post_id : Z) (title content : option string)
    (now : Z) : Session * result BlogPost :=
  match post_get_by_id_or_raise s post_id with
  | Err e => (s, Err e)
  | Ok post =>
      let post := {| p_id := p_id post;
                     p_title := default (p_title post) title;
                     p_content := default (p_content post) content;
                     p_author_id := p_author_id post;
                     p_created_at := p_created_at post;
                     p_updated_at := now |} in
      ({| users := users s; posts := <[post_id := post]> (posts s) |}, Ok post)
  end.

Definition post_delete (s : Session) (post_id : Z) : Session * result unit :=
  match post_get_by_id_or_raise s post_id with
  | Err e => (s, Err e)
  | Ok _ => ({| users := users s; posts := delete post_id (posts s) |}, Ok ())
  end.

(** [BlogPostService] *)
Definition _validate_ownership (s : Session) (post : BlogPost) (user_oid : string)
  : result unit :=
  match user_get_by_id s (p_author_id post) with
  | Some author =>
      if bool_decide (u_oid author <> user_oid)
      then Err (AuthorizationError "You do not have permission to modify this post")
      else Ok ()
  | None => Err (AuthorizationError "You do not have permission to modify this post")
  end.

Definition create_post (s : Session) (title content author_oid : string)
    (user_row post_row : NewRow) : Session * result BlogPost :=
  match user_get_or_create s author_oid None user_row with
  | (s', Err e) => (s', Err e)
  | (s', Ok (user, _)) =>
      let '(s'', post) := post_create s' title content (u_id user) post_row in
      (s'', Ok post)
  end.

Definition get_post (s : Session) (post_id : Z) : result BlogPost :=
  post_get_by_id_or_raise s post_id.

Definition update_post (s : Session) (post_id : Z) (title content : option string)
    (user_oid : string) (now : Z) : Session * result BlogPost :=
  match post_get_by_id_or_raise s post_id with
  | Err e => (s, Err e)
  | Ok post =>
      match _validate_ownership s post user_oid with
      | Err e => (s, Err e)
      | Ok _ => post_update s post_id title content now
      end
  end.

Definition delete_post (s : Session) (post_id : Z) (user_oid : string)
  : Session * result unit :=
  match post_get_by_id_or_raise s post_id with
  | Err e => (s, Err e)
  | Ok post =>
      match _validate_ownership s post user_oid with
      | Err e => (s, Err e)
      | Ok _ => post_delete s post_id
      end
  end.

(** routes.py: the handlers of PUT and DELETE /posts/{post_id} turn the two
    errors into [HTTPException]s. *)
Definition to_http {A} (r : result A) : reply A :=
  match r with
  | Ok a => Done a
  | Err (ResourceNotFoundError resource identifier as e) =>
      Abort {| exc_status_code := 404; exc_detail := PStr (error_message e);
               exc_headers := [] |}
  | Err (AuthorizationError message as e) =>
      Abort {| exc_status_code := 403; exc_detail := PStr (error_message e);
               exc_headers := [] |}
  | Err IntegrityError => Crash (PyError "IntegrityError" (error_message IntegrityError))
  end.

Definition route_update_post (s : Session) (post_id : Z) (title content : option string)
    (user_oid : string) (now : Z) : Session * reply BlogPost :=
  let '(s', r) := update_post s post_id title content user_oid now in (s', to_http r).

Definition route_delete_post (s : Session) (post_id : Z) (user_oid : string)
  : Session * reply unit :=
  let '(s', r) := delete_post s post_id user_oid in (s', to_http r).

End Blog.

Section BlogFacts.
Import Blog.

(** No two users have the same [oid] (the unique index of the table). *)
Definition oids_unique (s : Session) : Prop :=
  forall i j u v, users s !! i = Some u -> users s !! j = Some v ->
    u_oid u = u_oid v -> i = j.

(** Every user row is stored under its id. *)
Definition users_keyed (s : Session) : Prop :=
  forall i u, users s !! i = Some u -> u_id u = i.

Lemma user_get_by_oid_Some s oid u :
  user_get_by_oid s oid = Some u -> u_oid u = oid /\ exists i, users s !! i = Some u.
Proof.
  unfold user_get_by_oid. intros H. apply head_Some_elem_of in H.
  apply list_elem_of_filter in H as [Hoid Hin].
  apply list_elem_of_fmap in Hin as ([i u'] & -> & Hin).
  apply elem_of_map_to_list in Hin. split; [done|]. by exists i.
Qed.

Lemma user_get_by_oid_None s oid i u :
  user_get_by_oid s oid = None -> users s !! i = Some u -> u_oid u <> oid.
Proof.
  unfold user_get_by_oid. intros H Hi Hoid. apply head_None in H.
  apply filter_nil_not_elem_of with (x := u) in H; [|done].
  apply H. apply list_elem_of_fmap. exists (i, u). split; [done|].
  by apply elem_of_map_to_list.
Qed.

Lemma user_get_by_oid_unique s oid i u :
  oids_unique s -> users s !! i = Some u -> u_oid u = oid ->
  user_get_by_oid s oid = Some u.
Proof.
  intros Hu Hi Hoid. destruct (user_get_by_oid s oid) as [v|] eqn:E.
  - destruct (user_get_by_oid_Some _ _ _ E) as [Hv [j Hj]].
    assert (i = j) by (apply (Hu i j u v); congruence). subst j. congruence.
  - by destruct (user_get_by_oid_None _ _ _ _ E Hi).
Qed.

(** What [get_or_create] returns and leaves, for a new key. *)
Lemma get_or_create_users (s : Session) (oid : string) (display_name : option string)
    (row : NewRow) :
  oids_unique s -> users_keyed s -> users s !! new_id row = None ->
  exists s' user created,
    user_get_or_create s oid display_name row = (s', Ok (user, created)) /\
    u_oid user = oid /\ users s' !! u_id user = Some user.
Proof.
  intros Hu Hk Hfresh. unfold user_get_or_create, user_create.
  destruct (user_get_by_oid s oid) as [u|] eqn:E.
  - destruct (user_get_by_oid_Some _ _ _ E) as [Hoid [i Hi]].
    exists s, u, false. repeat split; try done. by rewrite (Hk _ _ Hi).
  - eexists _, _, true. repeat split. cbn. apply lookup_insert_eq.
Qed.

(** X19. [get_or_create] on a table without two users of one [oid], with a
    new key from the database: the table still has no two users of one
    [oid] and every row under its id; the user returned has the [oid] asked
    for and is in the table; nothing changes when the user was there; and
    asking again returns the same user, not created, and changes nothing. *)
Theorem get_or_create_is_idempotent (s : Session) (oid : string)
    (display_name : option string) (row : NewRow) :
  oids_unique s -> users_keyed s -> users s !! new_id row = None ->
  exists s' user created,
    user_get_or_create s oid display_name row = (s', Ok (user, created)) /\
    oids_unique s' /\ users_keyed s' /\
    u_oid user = oid /\ users s' !! u_id user = Some user /\
    (created = false -> s' = s) /\
    posts s' = posts s /\
    forall display_name' row',
      user_get_or_create s' oid display_name' row' = (s', Ok (user, false)).
Proof.
  intros Hu Hk Hfresh. unfold user_get_or_create, user_create.
  destruct (user_get_by_oid s oid) as [u|] eqn:E.
  - destruct (user_get_by_oid_Some _ _ _ E) as [Hoid [i Hi]].
    exists s, u, false. repeat split; try done.
    + by rewrite (Hk _ _ Hi).
    + intros dn' row'. by rewrite E.
  - set (user := {| u_id := new_id row; u_oid := oid; u_display_name := display_name;
                    u_created_at := created_at row; u_updated_at := updated_at row |}).
    set (s' := {| users := <[new_id row := user]> (users s); posts := posts s |}).
    assert (Hu' : oids_unique s').
    { intros i j a b Ha Hb Hoid. cbn in Ha, Hb. rewrite lookup_insert in Ha, Hb.
      destruct (decide (new_id row = i)) as [<-|Hi], (decide (new_id row = j)) as [<-|Hj].
      - done.
      - injection Ha as <-. cbn in Hoid. symmetry in Hoid.
        by destruct (user_get_by_oid_None _ _ _ _ E Hb).
      - injection Hb as <-. cbn in Hoid.
        by destruct (user_get_by_oid_None _ _ _ _ E Ha).
      - by apply (Hu i j a b). }
    assert (Hk' : users_keyed s').
    { intros i a Ha. cbn in Ha. rewrite lookup_insert in Ha.
      destruct (decide (new_id row = i)) as [<-|Hi]; [by injection Ha as <-|by apply Hk]. }
    assert (Hin : users s' !! u_id user = Some user) by apply lookup_insert_eq.
    exists s', user, true. repeat split; try done.
    intros dn' row'.
    by rewrite (user_get_by_oid_unique s' oid (u_id user) user Hu' Hin eq_refl).
Qed.

Definition sample_user : User :=
  {| u_id := 1; u_oid := "oid-alice"; u_display_name := Some "Alice";
     u_created_at := 100; u_updated_at := 100 |}.

Definition sample_post : BlogPost :=
  {| p_id := 7; p_title := "Hello"; p_content := "First post"; p_author_id := 1;
     p_created_at := 110; p_updated_at := 110 |}.

Definition sample_session : Session :=
  {| users := {[ 1%Z := sample_user ]}; posts := {[ 7%Z := sample_post ]} |}.

Definition sample_row : NewRow := {| new_id := 2; created_at := 200; updated_at := 200 |}.

Lemma sample_session_unique : oids_unique sample_session.
Proof.
  intros i j u v Hi Hj _. cbn in Hi, Hj.
  apply lookup_singleton_Some in Hi as [<- _]. by apply lookup_singleton_Some in Hj as [<- _].
Qed.

Lemma sample_session_keyed : users_keyed sample_session.
Proof. intros i u Hi. cbn in Hi. by apply lookup_singleton_Some in Hi as [<- <-]. Qed.

Lemma get_or_create_is_idempotent_witness :
  oids_unique sample_session /\ users_keyed sample_session /\
  users sample_session !! new_id sample_row = None /\
  exists s' user created,
    user_get_or_create sample_session "oid-bob" None sample_row
      = (s', Ok (user, created)) /\
    u_oid user = "oid-bob" /\
    user_get_or_create s' "oid-bob" None sample_row = (s', Ok (user, false)).
Proof.
  split; [exact sample_session_unique|]. split; [exact sample_session_keyed|].
  split; [reflexivity|].
  destruct (get_or_create_is_idempotent sample_session "oid-bob" None sample_row
              sample_session_unique sample_session_keyed eq_refl)
    as (s' & user & created & Hcall & _ & _ & Hoid & _ & _ & _ & Hagain).
  exists s', user, created. split; [exact Hcall|]. split; [exact Hoid|apply Hagain].
Defined.

(** X20. PUT /posts/{id}, for an id within the integers of the database:
    only the author of a post changes it.  A response means that the
    caller's [oid] is the author's, and the post keeps its id, author and
    creation time, takes the fields given and the new update time, and no
    other row changes; a missing post gives 404 and a caller who is not the
    author 403, both leaving the tables as they were. *)
Theorem update_is_for_the_author_only (s : Session) (post_id : Z)
    (title content : option string) (user_oid : string) (now : Z) :
  (- 2 ^ 63 <= post_id < 2 ^ 63)%Z ->
  let out := route_update_post s post_id title content user_oid now in
  match snd out with
  | Done post =>
      exists old author,
        posts s !! post_id = Some old /\
        users s !! p_author_id old = Some author /\ u_oid author = user_oid /\
        post = {| p_id := p_id old;
                  p_title := default (p_title old) title;
                  p_content := default (p_content old) content;
                  p_author_id := p_author_id old;
                  p_created_at := p_created_at old;
                  p_updated_at := now |} /\
        users (fst out) = users s /\
        posts (fst out) = <[post_id := post]> (posts s)
  | Abort e =>
      fst out = s /\
      ((exc_status_code e = 404%Z /\ posts s !! post_id = None) \/
       (exc_status_code e = 403%Z /\
        exists old, posts s !! post_id = Some old /\
          forall author, users s !! p_author_id old = Some author ->
                         u_oid author <> user_oid))
  | Crash _ => False
  end.
Proof.
  intros _. cbv zeta.
  unfold route_update_post, update_post, post_update, post_get_by_id_or_raise,
    post_get_by_id, _validate_ownership, user_get_by_id.
  destruct (posts s !! post_id) as [old|] eqn:Hold; cbn.
  - destruct (users s !! p_author_id old) as [author|] eqn:Hauthor; cbn.
    + case_bool_decide as Hne; cbn.
      * split; [done|]. right. split; [done|]. exists old. split; [done|].
        intros a Ha. rewrite Hauthor in Ha. by injection Ha as <-.
      * rewrite ?Hold. cbn. exists old, author.
        assert (u_oid author = user_oid) by (by destruct (decide (u_oid author = user_oid))).
        by repeat split.
    + split; [done|]. right. split; [done|]. exists old. split; [done|].
      intros a Ha. by rewrite Hauthor in Ha.
  - split; [done|]. by left.
Qed.

Lemma update_is_for_the_author_only_witness :
  (- 2 ^ 63 <= 7 < 2 ^ 63)%Z /\
  exists e,
    snd (route_update_post sample_session 7 (Some "Hi") None "oid-mallory" 300) = Abort e /\
    exc_status_code e = 403%Z /\
    fst (route_update_post sample_session 7 (Some "Hi") None "oid-mallory" 300)
      = sample_session.
Proof.
  split; [lia|].
  pose proof (update_is_for_the_author_only sample_session 7 (Some "Hi") None
                "oid-mallory" 300 ltac:(lia)) as H.
  cbv zeta in H.
  destruct (snd (route_update_post sample_session 7 (Some "Hi") None "oid-mallory" 300))
    as [post|e|e] eqn:E; [vm_compute in E; discriminate E| |destruct H].
  exists e. split; [reflexivity|]. destruct H as [Hs [[_ Hnone]|[H403 _]]].
  - vm_compute in Hnone. discriminate Hnone.
  - split; [exact H403|exact Hs].
Defined.

(** X21. DELETE /posts/{id}, for an id within the integers of the
    database: only the author of a post deletes it.  A response means that
    the caller's [oid] is the author's and that this post, and nothing
    else, is gone; a missing post gives 404 and a caller who is not the
    author 403, both leaving the tables as they were. *)
Theorem delete_is_for_the_author_only (s : Session) (post_id : Z) (user_oid : string) :
  (- 2 ^ 63 <= post_id < 2 ^ 63)%Z ->
  let out := route_delete_post s post_id user_oid in
  match snd out with
  | Done _ =>
      exists old author,
        posts s !! post_id = Some old /\
        users s !! p_author_id old = Some author /\ u_oid author = user_oid /\
        users (fst out) = users s /\
        posts (fst out) = delete post_id (posts s)
  | Abort e =>
      fst out = s /\
      ((exc_status_code e = 404%Z /\ posts s !! post_id = None) \/
       (exc_status_code e = 403%Z /\
        exists old, posts s !! post_id = Some old /\
          forall author, users s !! p_author_id old = Some author ->
                         u_oid author <> user_oid))
  | Crash _ => False
  end.
Proof.
  intros _. cbv zeta.
  unfold route_delete_post, delete_post, post_delete, post_get_by_id_or_raise,
    post_get_by_id, _validate_ownership, user_get_by_id.
  destruct (posts s !! post_id) as [old|] eqn:Hold; cbn.
  - destruct (users s !! p_author_id old) as [author|] eqn:Hauthor; cbn.
    + case_bool_decide as Hne; cbn.
      * split; [done|]. right. split; [done|]. exists old. split; [done|].
        intros a Ha. rewrite Hauthor in Ha. by injection Ha as <-.
      * rewrite ?Hold. cbn. exists old, author.
        assert (u_oid author = user_oid) by (by destruct (decide (u_oid author = user_oid))).
        by repeat split.
    + split; [done|]. right. split; [done|]. exists old. split; [done|].
      intros a Ha. by rewrite Hauthor in Ha.
  - split; [done|]. by left.
Qed.

Lemma delete_is_for_the_author_only_witness :
  (- 2 ^ 63 <= 9 < 2 ^ 63)%Z /\
  exists e,
    snd (route_delete_post sample_session 9 "oid-alice") = Abort e /\
    exc_status_code e = 404%Z /\
    fst (route_delete_post sample_session 9 "oid-alice") = sample_session.
Proof.
  split; [lia|].
  pose proof (delete_is_for_the_author_only sample_session 9 "oid-alice" ltac:(lia)) as H.
  cbv zeta in H.
  destruct (snd (route_delete_post sample_session 9 "oid-alice"))
    as [u|e|e] eqn:E; [vm_compute in E; discriminate E| |destruct H].
  exists e. split; [reflexivity|]. destruct H as [Hs [[H404 _]|[_ (old & Hold & _)]]].
  - split; [exact H404|exact Hs].
  - vm_compute in Hold. discriminate Hold.
Defined.

(** X22. Once a post is deleted, it is gone for everybody: reading it,
    updating it and deleting it again all answer 404, whoever asks. *)
Theorem deleted_post_is_not_found (s : Session) (post_id : Z) (user_oid : string) :
  snd (route_delete_post s post_id user_oid) = Done () ->
  let s' := fst (route_delete_post s post_id user_oid) in
  get_post s' post_id = Err (ResourceNotFoundError "BlogPost" post_id) /\
  forall other title content now,
    (exists e, route_update_post s' post_id title content other now = (s', Abort e) /\
               exc_status_code e = 404%Z) /\
    (exists e, route_delete_post s' post_id other = (s', Abort e) /\
               exc_status_code e = 404%Z).
Proof.
  intros Hdone s'.
  assert (Hgone : posts s' !! post_id = None).
  { subst s'. revert Hdone.
    unfold route_delete_post, delete_post, post_delete, post_get_by_id_or_raise,
      post_get_by_id.
    destruct (posts s !! post_id) as [old|] eqn:Hold; cbn; [|done].
    destruct (_validate_ownership s old user_oid); cbn; [|by destruct e].
    rewrite ?Hold. cbn. intros _. apply lookup_delete_eq. }
  split.
  - unfold get_post, post_get_by_id_or_raise, post_get_by_id. by rewrite Hgone.
  - intros other title content now. split.
    + unfold route_update_post, update_post, post_get_by_id_or_raise, post_get_by_id.
      rewrite Hgone. cbn. by eexists.
    + unfold route_delete_post, delete_post, post_get_by_id_or_raise, post_get_by_id.
      rewrite Hgone. cbn. by eexists.
Qed.

Lemma deleted_post_is_not_found_witness :
  snd (route_delete_post sample_session 7 "oid-alice") = Done () /\
  get_post (fst (route_delete_post sample_session 7 "oid-alice")) 7
    = Err (ResourceNotFoundError "BlogPost" 7).
Proof.
  assert (Hd : snd (route_delete_post sample_session 7 "oid-alice") = Done ())
    by (vm_compute; reflexivity).
  split; [exact Hd|].
  exact (proj1 (deleted_post_is_not_found sample_session 7 "oid-alice" Hd)).
Defined.

(** X23. The user who creates a post is the one who may delete it: after
    [create_post] for an [oid], on tables with one user per [oid] and every
    user under its id, the delete route answers the new post's id with a
    response exactly for that [oid]. *)
Theorem creator_is_the_author (s : Session) (title content author_oid : string)
    (user_row post_row : NewRow) :
  oids_unique s -> users_keyed s -> users s !! new_id user_row = None ->
  exists s' post,
    create_post s title content author_oid user_row post_row = (s', Ok post) /\
    p_id post = new_id post_row /\ p_title post = title /\ p_content post = content /\
    get_post s' (p_id post) = Ok post /\
    forall other,
      snd (route_delete_post s' (p_id post) other) = Done () <-> other = author_oid.
Proof.
  intros Hu Hk Hfresh. unfold create_post.
  destruct (get_or_create_users s author_oid None user_row Hu Hk Hfresh)
    as (s1 & user & created & -> & Hoid & Hin).
  unfold post_create. eexists _, _. split; [reflexivity|]. cbn [p_id p_title p_content].
  repeat split.
  - unfold get_post, post_get_by_id_or_raise, post_get_by_id. cbn.
    by rewrite lookup_insert_eq.
  - unfold route_delete_post, delete_post, post_delete, post_get_by_id_or_raise,
      post_get_by_id, _validate_ownership, user_get_by_id. cbn.
    rewrite lookup_insert_eq. cbn. rewrite Hin.
    case_bool_decide as Hne; cbn; [done|].
    intros _. destruct (decide (u_oid user = other)); congruence.
  - intros ->.
    unfold route_delete_post, delete_post, post_delete, post_get_by_id_or_raise,
      post_get_by_id, _validate_ownership, user_get_by_id. cbn.
    rewrite lookup_insert_eq. cbn. rewrite Hin.
    case_bool_decide as Hne; cbn; [done|]. by rewrite ?lookup_insert_eq.
Qed.

Lemma creator_is_the_author_witness :
  oids_unique sample_session /\ users_keyed sample_session /\
  users sample_session !! new_id sample_row = None /\
  exists s' post,
    create_post sample_session "Notes" "Second post" "oid-bob" sample_row
      {| new_id := 8; created_at := 210; updated_at := 210 |} = (s', Ok post) /\
    snd (route_delete_post s' (p_id post) "oid-bob") = Done () /\
    snd (route_delete_post s' (p_id post) "oid-alice") <> Done ().
Proof.
  split; [exact sample_session_unique|]. split; [exact sample_session_keyed|].
  split; [reflexivity|].
  destruct (creator_is_the_author sample_session "Notes" "Second post" "oid-bob" sample_row
              {| new_id := 8; created_at := 210; updated_at := 210 |}
              sample_session_unique sample_session_keyed eq_refl)
    as (s' & post & Hc & _ & _ & _ & _ & Hdel).
  exists s', post. split; [exact Hc|]. split.
  - by apply Hdel.
  - intros H. apply Hdel in H. discriminate H.
Defined.

End BlogFacts.

(** * client/src/api_client.py: the response handler of the client *)

Module Client.

(** client/src/exceptions.py: the classes below [APIClientError], each
    with the argument it is raised with. *)
Inductive api_client_error :=
| UnauthorizedError (detail : pyval)
| ForbiddenError (detail : pyval)
| NotFoundError (detail : pyval)
| BadRequestError (detail : pyval)
| APIServerError (detail : pyval)
| APIClientError (detail : pyval)
| AttributeError.                 (* [response_data.get] on a value that is no dict *)

Inductive handled :=
| Data (response_data : pyval)
| Failed (e : api_client_error).

(** [response.ok] of requests: no status from 400 to 599. *)
Definition ok (status_code : Z) : bool :=
  negb ((400 <=? status_code)%Z && (status_code <? 600)%Z).

(** [_handle_response(response)]: [json] is what [response.json()] does and
    [text] is [response.text]. *)
Definition _handle_response (status_code : Z) (json : outcome pyval) (text : string)
  : handled :=
  let response_data :=
    match json with
    | Returned data => data
    | Raised _ => PDict [("detail", PStr text)]
    end in
  let raise_with (error : pyval -> api_client_error) (default : string) : handled :=
    match response_data with
    | PDict d => Failed (error (dict_get_default d "detail" (PStr default)))
    | _ => Failed AttributeError
    end in
  if (status_code =? 401)%Z then raise_with UnauthorizedError "Authentication required"
  else if (status_code =? 403)%Z then raise_with ForbiddenError "Insufficient permissions"
  else if (status_code =? 404)%Z then raise_with NotFoundError "Resource not found"
  else if (status_code =? 400)%Z then raise_with BadRequestError "Invalid request"
  else if (500 <=? status_code)%Z then raise_with APIServerError "Internal server error"
  else if negb (ok status_code)
       then raise_with APIClientError ("API error: " +:+ pretty status_code)
  else Data response_data.

End Client.

Section ClientFacts.
Import Client.

(** X24. The client hands back the body of a response exactly when the
    status is below 400: the JSON value, or [{"detail": text}] when the
    body is not JSON.  For every status from 400 on it raises, and with a
    JSON object as body the class is fixed by the status: 401, 403, 404,
    400, 500 and more, and [APIClientError] for the rest. *)
Theorem client_returns_below_400 (status_code : Z) (json : outcome pyval) (text : string) :
  let response_data :=
    match json with Returned data => data | Raised _ => PDict [("detail", PStr text)] end in
  ((status_code < 400)%Z -> _handle_response status_code json text = Data response_data) /\
  ((400 <= status_code)%Z -> exists e, _handle_response status_code json text = Failed e) /\
  (forall d, response_data = PDict d ->
     forall detail,
       (_handle_response status_code json text = Failed (UnauthorizedError detail)
          -> status_code = 401%Z) /\
       (_handle_response status_code json text = Failed (ForbiddenError detail)
          -> status_code = 403%Z) /\
       (_handle_response status_code json text = Failed (NotFoundError detail)
          -> status_code = 404%Z) /\
       (_handle_response status_code json text = Failed (BadRequestError detail)
          -> status_code = 400%Z) /\
       (_handle_response status_code json text = Failed (APIServerError detail)
          -> (500 <= status_code)%Z) /\
       (_handle_response status_code json text = Failed (APIClientError detail)
          -> (400 < status_code < 500)%Z /\ status_code <> 401%Z /\
             status_code <> 403%Z /\ status_code <> 404%Z)).
Proof.
  cbv zeta. unfold _handle_response, ok.
  set (response_data :=
         match json with Returned data => data | Raised _ => PDict [("detail", PStr text)] end).
  destruct (Z.eqb_spec status_code 401), (Z.eqb_spec status_code 403),
    (Z.eqb_spec status_code 404), (Z.eqb_spec status_code 400),
    (Z.leb_spec 500 status_code), (Z.leb_spec 400 status_code),
    (Z.ltb_spec status_code 600); cbn [andb negb]; try lia.
  all: split; [intros ?; try lia; try done|].
  all: split; [intros ?; try lia; destruct response_data; eauto|].
  all: intros d ->; intros detail; repeat split; try done; try lia.
Qed.

Lemma client_returns_below_400_witness :
  (204 < 400)%Z /\ (400 <= 403)%Z /\
  _handle_response 204 (Raised (PyError "JSONDecodeError" "Expecting value")) ""
    = Data (PDict [("detail", PStr "")]) /\
  exists e,
    _handle_response 403
      (Returned (PDict [("detail", PStr "You do not have permission to modify this post")]))
      "" = Failed e.
Proof.
  split; [lia|]. split; [lia|]. split.
  - apply (proj1 (client_returns_below_400 204
                    (Raised (PyError "JSONDecodeError" "Expecting value")) "")). lia.
  - apply (proj1 (proj2 (client_returns_below_400 403
             (Returned (PDict [("detail",
                PStr "You do not have permission to modify this post")])) ""))). lia.
Defined.

End ClientFacts.
